(** * TherapistIndex: record reconciliation and rule-based attribute extraction

    A shallow embedding of the decision logic of the data pipeline scripts
    ([scripts/utils.py], [scripts/clean_data.py], [scripts/enrich_data.py],
    [scripts/verify_licenses.py]) together with the properties the
    specification states about them.

    Conventions of the embedding.
    - A Python [str] is a [string]; a character is an [ascii].  The
      character classes ([isspace], [isdigit], word characters) and the case
      mappings are the ASCII ones: a code above 127 is an "other" character,
      in no class and left alone by [lower] and [upper].
    - A pandas cell read with [dtype=str] is a [cell]: [NaN] when missing,
      [Str s] otherwise.
    - Regular expressions are syntax trees run by a backtracking matcher
      with Python's priorities (ordered alternation, greedy repetition). *)

From Stdlib Require Import String Ascii List Bool Arith NArith ZArith Lia.
From Stdlib Require Import Sorted Permutation DecimalString.
Import ListNotations.
Open Scope string_scope.

(** ** Python strings *)

Module Py.

Definition code (c : ascii) : N := N_of_ascii c.

Definition between (lo hi : N) (c : ascii) : bool :=
  ((lo <=? code c) && (code c <=? hi))%N.

Definition isupper (c : ascii) : bool := between 65 90 c.
Definition islower (c : ascii) : bool := between 97 122 c.
Definition isalpha (c : ascii) : bool := isupper c || islower c.
Definition isdigit (c : ascii) : bool := between 48 57 c.

(** [str.isspace] on ASCII: TAB, LF, VT, FF, CR, the separators 28..31 and
    the space.  The [\s] class of [re] is the same set. *)
Definition isspace (c : ascii) : bool := between 9 13 c || between 28 32 c.

(** The [\w] class of [re]. *)
Definition isword (c : ascii) : bool :=
  isalpha c || isdigit c || (c =? "_")%char.

Definition lower_char (c : ascii) : ascii :=
  if isupper c then ascii_of_N (code c + 32) else c.

Definition upper_char (c : ascii) : ascii :=
  if islower c then ascii_of_N (code c - 32) else c.

Fixpoint map_str (f : ascii -> ascii) (s : string) : string :=
  match s with
  | EmptyString => EmptyString
  | String c t => String (f c) (map_str f t)
  end.

Fixpoint filter_str (p : ascii -> bool) (s : string) : string :=
  match s with
  | EmptyString => EmptyString
  | String c t => if p c then String c (filter_str p t) else filter_str p t
  end.

(** [s.lower()] and [s.upper()]. *)
Definition lower : string -> string := map_str lower_char.
Definition upper : string -> string := map_str upper_char.

Fixpoint lstrip_by (p : ascii -> bool) (s : string) : string :=
  match s with
  | EmptyString => EmptyString
  | String c t => if p c then lstrip_by p t else s
  end.

Fixpoint rstrip_by (p : ascii -> bool) (s : string) : string :=
  match s with
  | EmptyString => EmptyString
  | String c t =>
      match rstrip_by p t with
      | EmptyString => if p c then EmptyString else String c EmptyString
      | r => String c r
      end
  end.

(** [s.strip()]. *)
Definition strip (s : string) : string := rstrip_by isspace (lstrip_by isspace s).

(** [s.rstrip("/")]. *)
Definition rstrip_slash (s : string) : string :=
  rstrip_by (fun c => (c =? "/")%char) s.

(** [s.split()]: the maximal runs of non-space characters, in order. *)
Fixpoint split (s : string) : list string :=
  match s with
  | EmptyString => []
  | String c t =>
      if isspace c then split t
      else match t with
           | EmptyString => [String c EmptyString]
           | String d _ =>
               if isspace d then String c EmptyString :: split t
               else match split t with
                    | w :: ws => String c w :: ws
                    | [] => [String c EmptyString]
                    end
           end
  end.

(** [s.split(",")]: the fields between commas, always at least one. *)
Fixpoint split_on (sep : ascii) (s : string) : list string :=
  match s with
  | EmptyString => [EmptyString]
  | String c t =>
      if (c =? sep)%char then EmptyString :: split_on sep t
      else match split_on sep t with
           | w :: ws => String c w :: ws
           | [] => [String c EmptyString]
           end
  end.

(** [sep.join(parts)]. *)
Definition join (sep : string) (parts : list string) : string :=
  String.concat sep parts.

(** [p in s]: [p] occurs in [s] as a contiguous substring. *)
Fixpoint is_substring (p s : string) : bool :=
  String.prefix p s ||
  match s with
  | EmptyString => false
  | String _ t => is_substring p t
  end.

(** [s.startswith(p)]. *)
Definition startswith (p s : string) : bool := String.prefix p s.

(** [any(p in s for p in phrases)]. *)
Definition any_in (phrases : list string) (s : string) : bool :=
  existsb (fun p => is_substring p s) phrases.

(** [s.title()]: a letter is upper-cased when the character before it is
    not a letter and lower-cased otherwise. *)
Fixpoint title_from (prev_cased : bool) (s : string) : string :=
  match s with
  | EmptyString => EmptyString
  | String c t =>
      String (if prev_cased then lower_char c else upper_char c)
             (title_from (isalpha c) t)
  end.

Definition title : string -> string := title_from false.

(** [s[:n]] and [s[n:]]. *)
Definition take (n : nat) (s : string) : string := String.substring 0 n s.

Fixpoint drop (n : nat) (s : string) : string :=
  match n, s with
  | S m, String _ t => drop m t
  | _, _ => s
  end.

(** [int(s)] for a run of decimal digits. *)
Definition digit_value (c : ascii) : Z := Z.of_N (code c) - 48.

Fixpoint int_from (acc : Z) (s : string) : Z :=
  match s with
  | EmptyString => acc
  | String c t => int_from (10 * acc + digit_value c) t
  end.

Definition int (s : string) : Z := int_from 0 s.

(** [not s] for a string. *)
Definition is_empty (s : string) : bool :=
  match s with EmptyString => true | _ => false end.

End Py.

(** ** Regular expressions

    The fragment of Python's [re] the scripts use.  [Cls] is a character
    class given by its membership test; [Lit] is an escaped literal
    ([re.escape]); [Grp n] is the capturing group number [n]. *)

Module Re.

Inductive regex : Type :=
| Eps
| Chr (c : ascii)
| Cls (p : ascii -> bool)
| Lit (s : string)
| Seq (r1 r2 : regex)
| Alt (r1 r2 : regex)
| Star (r : regex)
| Rep (lo hi : nat) (r : regex)
| Grp (n : nat) (r : regex)
| WordB
| Bol
| Eol.

Definition Opt (r : regex) : regex := Alt r Eps.
Definition Plus (r : regex) : regex := Seq r (Star r).
Definition cat (rs : list regex) : regex := fold_right Seq Eps rs.
Definition alts (rs : list regex) : regex :=
  match rs with
  | [] => Cls (fun _ => false)
  | r :: rest => fold_left Alt rest r
  end.

(** The matcher's position in the subject: the index, the character just
    before it (for [\b]), what is left, and the groups closed so far as
    (number, (start, end)). *)
Record cursor : Type := mkCursor {
  pos : nat;
  prev : option ascii;
  rest : string;
  caps : list (nat * (nat * nat))
}.

Definition advance (x : ascii) (t : string) (cu : cursor) : cursor :=
  {| pos := S (pos cu); prev := Some x; rest := t; caps := caps cu |}.

Definition set_cap (n start : nat) (cu : cursor) : cursor :=
  {| pos := pos cu; prev := prev cu; rest := rest cu;
     caps := (n, (start, pos cu)) :: caps cu |}.

(** Character comparison, case-folded under [re.IGNORECASE]. *)
Definition chr_eq (ic : bool) (c x : ascii) : bool :=
  if ic then (Py.lower_char c =? Py.lower_char x)%char else (c =? x)%char.

Fixpoint lit (ic : bool) (s : string) (cu : cursor) : option cursor :=
  match s with
  | EmptyString => Some cu
  | String c s' =>
      match rest cu with
      | String x t => if chr_eq ic c x then lit ic s' (advance x t cu) else None
      | EmptyString => None
      end
  end.

Definition word_opt (o : option ascii) : bool :=
  match o with Some c => Py.isword c | None => false end.

Definition next (cu : cursor) : option ascii :=
  match rest cu with String x _ => Some x | EmptyString => None end.

(** [\b]: exactly one of the two neighbours is a word character. *)
Definition at_boundary (cu : cursor) : bool :=
  xorb (word_opt (prev cu)) (word_opt (next cu)).

(** [$] without [re.MULTILINE]: the end, or just before a final newline. *)
Definition at_end (cu : cursor) : bool :=
  match rest cu with
  | EmptyString => true
  | String c EmptyString => (c =? "010")%char
  | _ => false
  end.

Definition orelse {A} (a b : option A) : option A :=
  match a with Some x => Some x | None => b end.

Definition is_some {A : Type} (o : option A) : bool :=
  match o with Some _ => true | None => false end.

Section Loops.
Variable body : cursor -> (cursor -> option cursor) -> option cursor.

(** Greedy optional iterations: at most [n] more rounds of [body], each
    of which must consume something; the longest is tried first. *)
Fixpoint more (n : nat) (cu : cursor) (k : cursor -> option cursor)
  : option cursor :=
  match n with
  | O => k cu
  | S n' =>
      orelse
        (body cu (fun cu' =>
           if (pos cu <? pos cu')%nat then more n' cu' k else None))
        (k cu)
  end.

(** [lo] compulsory rounds, then up to [extra] optional ones. *)
Fixpoint times (lo extra : nat) (cu : cursor) (k : cursor -> option cursor)
  : option cursor :=
  match lo with
  | O => more extra cu k
  | S lo' => body cu (fun cu' => times lo' extra cu' k)
  end.
End Loops.

(** [run ic r cu k]: match [r] at [cu], then continue with [k]; the first
    success in Python's backtracking order is returned. *)
Fixpoint run (ic : bool) (r : regex) (cu : cursor)
  (k : cursor -> option cursor) {struct r} : option cursor :=
  match r with
  | Eps => k cu
  | Chr c =>
      match rest cu with
      | String x t => if chr_eq ic c x then k (advance x t cu) else None
      | EmptyString => None
      end
  | Cls p =>
      match rest cu with
      | String x t => if p x then k (advance x t cu) else None
      | EmptyString => None
      end
  | Lit s => match lit ic s cu with Some cu' => k cu' | None => None end
  | Seq r1 r2 => run ic r1 cu (fun cu' => run ic r2 cu' k)
  | Alt r1 r2 => orelse (run ic r1 cu k) (run ic r2 cu k)
  | Star r1 => more (run ic r1) (String.length (rest cu)) cu k
  | Rep lo hi r1 => times (run ic r1) lo (hi - lo) cu k
  | Grp n r1 =>
      let start := pos cu in
      run ic r1 cu (fun cu' => k (set_cap n start cu'))
  | WordB => if at_boundary cu then k cu else None
  | Bol => if (pos cu =? 0)%nat then k cu else None
  | Eol => if at_end cu then k cu else None
  end.

Definition match_here (ic : bool) (r : regex) (p : nat) (pv : option ascii)
  (s : string) : option cursor :=
  run ic r {| pos := p; prev := pv; rest := s; caps := [] |} Some.

(** [re.match(r, s)]: a match starting at index 0. *)
Definition match_start (ic : bool) (r : regex) (s : string) : option cursor :=
  match_here ic r 0 None s.

(** Leftmost match at or after the current position. *)
Fixpoint search_from (ic : bool) (r : regex) (p : nat) (pv : option ascii)
  (s : string) : option (nat * cursor) :=
  match match_here ic r p pv s with
  | Some e => Some (p, e)
  | None =>
      match s with
      | EmptyString => None
      | String c t => search_from ic r (S p) (Some c) t
      end
  end.

(** [re.search(r, s)] as a truth value. *)
Definition search (ic : bool) (r : regex) (s : string) : bool :=
  match search_from ic r 0 None s with Some _ => true | None => false end.

(** Text of group [n] of a match ended at [e]; a group that took no part
    is the empty string, as [findall] reports it. *)
Definition group (text : string) (e : cursor) (n : nat) : string :=
  match find (fun c => (fst c =? n)%nat) (caps e) with
  | Some (_, (a, b)) => String.substring a (b - a) text
  | None => EmptyString
  end.

(** The non-overlapping matches from left to right, as (start, end cursor).
    After a match the scan resumes where it ended (one character further
    when the match was empty). *)
Fixpoint scan (ic : bool) (r : regex) (fuel p : nat) (pv : option ascii)
  (s : string) : list (nat * cursor) :=
  match fuel with
  | O => []
  | S fuel' =>
      match match_here ic r p pv s with
      | Some e =>
          if (p <? pos e)%nat then (p, e) :: scan ic r fuel' (pos e) (prev e) (rest e)
          else (p, e) ::
               match s with
               | EmptyString => []
               | String c t => scan ic r fuel' (S p) (Some c) t
               end
      | None =>
          match s with
          | EmptyString => []
          | String c t => scan ic r fuel' (S p) (Some c) t
          end
      end
  end.

Definition finditer (ic : bool) (r : regex) (s : string) : list (nat * cursor) :=
  scan ic r (S (String.length s)) 0 None s.

(** [re.sub(r, repl, s)] with a replacement computed from the matched text. *)
Fixpoint sub_from (ic : bool) (r : regex) (repl : string -> string)
  (text : string) (fuel p : nat) (pv : option ascii) (s : string) : string :=
  match fuel with
  | O => s
  | S fuel' =>
      let step :=
        match s with
        | EmptyString => EmptyString
        | String c t => String c (sub_from ic r repl text fuel' (S p) (Some c) t)
        end in
      match match_here ic r p pv s with
      | Some e =>
          let out := repl (String.substring p (pos e - p) text) in
          if (p <? pos e)%nat
          then out ++ sub_from ic r repl text fuel' (pos e) (prev e) (rest e)
          else out ++ step
      | None => step
      end
  end.

Definition sub (ic : bool) (r : regex) (repl : string -> string) (s : string)
  : string :=
  sub_from ic r repl s (S (String.length s)) 0 None s.

(** *** Positions reached after consuming a known prefix

    Used to state what the matcher does on a subject cut into runs. *)

(** The last character of [a], or [pv] when [a] is empty. *)
Fixpoint last_of (a : string) (pv : option ascii) : option ascii :=
  match a with
  | EmptyString => pv
  | String x a' => last_of a' (Some x)
  end.

(** The cursor once [a] has been consumed and [b] is left. *)
Definition moved (a b : string) (cu : cursor) : cursor :=
  {| pos := pos cu + String.length a; prev := last_of a (prev cu);
     rest := b; caps := caps cu |}.

(** The first character of [s] is in the class [p]. *)
Definition starts (p : ascii -> bool) (s : string) : bool :=
  match s with String x _ => p x | EmptyString => false end.

(** Every character of [s] is in the class [p]. *)
Fixpoint all (p : ascii -> bool) (s : string) : bool :=
  match s with String x t => p x && all p t | EmptyString => true end.

(** The longest prefix in the class [p], and what follows it. *)
Fixpoint span (p : ascii -> bool) (s : string) : string * string :=
  match s with
  | EmptyString => (EmptyString, EmptyString)
  | String x t =>
      if p x then let (a, b) := span p t in (String x a, b)
      else (EmptyString, s)
  end.


(** The range recorded for group [n], if it took part in the match. *)
Definition group_range (e : cursor) (n : nat) : option (nat * nat) :=
  option_map snd (find (fun c => (fst c =? n)%nat) (caps e)).

End Re.

(** ** Python containers *)

Module Coll.

(** [found.add(x)] on a set kept as a duplicate-free list. *)
Definition set_add (x : string) (found : list string) : list string :=
  if existsb (String.eqb x) found then found else found ++ [x].

Fixpoint insert (x : string) (l : list string) : list string :=
  match l with
  | [] => [x]
  | y :: t => if String.leb x y then x :: l else y :: insert x t
  end.

(** [sorted(found)]: ascending in the code-point order of [str]. *)
Definition sorted (l : list string) : list string := fold_right insert [] l.

(** [min] and [max] of a non-empty list of integers. *)
Definition minimum (x : Z) (l : list Z) : Z := fold_left Z.min l x.
Definition maximum (x : Z) (l : list Z) : Z := fold_left Z.max l x.

End Coll.

(** A cell of a data frame read with [dtype=str]. *)
Inductive cell : Type :=
| NaN
| Str (s : string).

(** ** [scripts/utils.py] *)

Module Utils.

(** A compiled alias table: [alias -> canonical name], in insertion order
    (what [lookup.items()] yields). *)
Definition lookup_table : Type := list (string * string).

(** [match_insurance]: every alias is tested as a plain substring. *)
Definition match_insurance (text : string) (lookup : lookup_table) : list string :=
  if Py.is_empty text then []
  else
    let text_lower := Py.lower text in
    Coll.sorted
      (fold_left
         (fun found entry =>
            let '(alias, canonical) := entry in
            if Py.is_substring alias text_lower
            then Coll.set_add canonical found else found)
         lookup []).

(** The pattern [r"\b" + re.escape(alias) + r"\b"]. *)
Definition word_bounded (alias : string) : Re.regex :=
  Re.cat [Re.WordB; Re.Lit alias; Re.WordB].

(** The test one alias undergoes in [match_specializations]. *)
Definition alias_hit (alias text_lower : string) : bool :=
  if (String.length alias <=? 3)%nat
  then Re.search false (word_bounded alias) text_lower
  else Py.is_substring alias text_lower.

(** [match_specializations]; [enrich_data.py] calls it for the
    specializations table and again for the therapy-approach table. *)
Definition match_specializations (text : string) (lookup : lookup_table)
  : list string :=
  if Py.is_empty text then []
  else
    let text_lower := Py.lower text in
    Coll.sorted
      (fold_left
         (fun found entry =>
            let '(alias, canonical) := entry in
            if alias_hit alias text_lower
            then Coll.set_add canonical found else found)
         lookup []).

Definition no_indicators : list string :=
  [ "not accepting new"; "not currently accepting"; "no longer accepting";
    "practice is full"; "caseload is full"; "currently full" ].

Definition waitlist_indicators : list string :=
  [ "waitlist"; "wait list"; "waiting list"; "join the waitlist" ].

Definition yes_indicators : list string :=
  [ "accepting new patients"; "accepting new clients"; "currently accepting";
    "now accepting"; "welcoming new"; "taking new patients";
    "taking new clients"; "open to new"; "availability for new";
    "schedule an appointment"; "book an appointment"; "book a session";
    "free consultation"; "complimentary consultation" ].

(** [for phrase in phrases: if phrase in text_lower: return verdict],
    falling through to [otherwise]. *)
Fixpoint first_phrase (phrases : list string) (text_lower verdict : string)
  (otherwise : string) : string :=
  match phrases with
  | [] => otherwise
  | phrase :: more =>
      if Py.is_substring phrase text_lower then verdict
      else first_phrase more text_lower verdict otherwise
  end.

Definition detect_accepting_patients (text : string) : string :=
  if Py.is_empty text then "Unknown"
  else
    let text_lower := Py.lower text in
    first_phrase no_indicators text_lower "No"
      (first_phrase waitlist_indicators text_lower "Waitlist"
         (first_phrase yes_indicators text_lower "Yes" "Unknown")).

Definition guess_license_type (name category : string) : string :=
  let text := Py.lower (name ++ " " ++ category) in
  if Py.is_substring "psychiatr" text || Py.is_substring ", md" text
     || Py.is_substring "m.d." text then "MD/Psychiatrist"
  else if Py.is_substring "psyd" text || Py.is_substring "psy.d" text
  then "PsyD"
  else if Py.is_substring "ph.d" text || Py.is_substring "phd" text
          || Py.is_substring "psychologist" text then "PhD"
  else if Py.is_substring "lcsw" text || Py.is_substring "lcsw-c" text
  then "LCSW"
  else if Py.is_substring "lcpc" text then "LCPC"
  else if Py.is_substring "lpc" text then "LPC"
  else if Py.is_substring "lcmft" text then "LCMFT"
  else if Py.is_substring "lmft" text
          || Py.is_substring "marriage and family" text then "LMFT"
  else "".

(** The class [[-–—to]] of the price pattern.  The en and em dash lie
    outside the modelled alphabet, which leaves the hyphen, [t] and [o]. *)
Definition connector (c : ascii) : bool :=
  (c =? "-")%char || (c =? "t")%char || (c =? "o")%char.

(** [r"\$\s*(\d{2,4})\s*(?:[-–—to]+\s*\$?\s*(\d{2,4}))?"] *)
Definition price_pattern : Re.regex :=
  Re.cat
    [ Re.Chr "$"; Re.Star (Re.Cls Py.isspace);
      Re.Grp 1 (Re.Rep 2 4 (Re.Cls Py.isdigit));
      Re.Star (Re.Cls Py.isspace);
      Re.Opt
        (Re.cat
           [ Re.Plus (Re.Cls connector); Re.Star (Re.Cls Py.isspace);
             Re.Opt (Re.Chr "$"); Re.Star (Re.Cls Py.isspace);
             Re.Grp 2 (Re.Rep 2 4 (Re.Cls Py.isdigit)) ]) ].

(** [re.findall(pattern, text)] for a pattern with two groups. *)
Definition findall2 (r : Re.regex) (text : string) : list (string * string) :=
  map (fun m => (Re.group text (snd m) 1, Re.group text (snd m) 2))
      (Re.finditer false r text).

(** The candidate prices: the first amount of every match, and the second
    when the match has one. *)
Definition price_candidates (text : string) : list Z :=
  flat_map
    (fun m : string * string =>
       Py.int (fst m) :: (if Py.is_empty (snd m) then [] else [Py.int (snd m)]))
    (findall2 price_pattern text).

Definition plausible (p : Z) : bool := (20 <=? p)%Z && (p <=? 600)%Z.

Definition extract_price_range (text : string) : option Z * option Z :=
  if Py.is_empty text then (None, None)
  else
    match findall2 price_pattern text with
    | [] => (None, None)
    | _ =>
        match filter plausible (price_candidates text) with
        | [] => (None, None)
        | p :: ps => (Some (Coll.minimum p ps), Some (Coll.maximum p ps))
        end
    end.

(** [detect_telehealth] *)
Definition video_indicators : list string :=
  [ "telehealth"; "teletherapy"; "video session"; "video therapy";
    "online therapy"; "online counseling"; "virtual session";
    "virtual therapy"; "virtual appointment"; "doxy"; "zoom";
    "simplepractice telehealth"; "remote therapy" ].

Definition phone_indicators : list string :=
  [ "phone session"; "phone therapy"; "telephone session";
    "telephone therapy"; "phone counseling" ].

Definition telehealth_no_indicators : list string :=
  [ "in-person only"; "in person only"; "office visits only";
    "no telehealth"; "does not offer telehealth" ].

Definition detect_telehealth (text : string) : string :=
  if Py.is_empty text then "Unknown"
  else
    let text_lower := Py.lower text in
    first_phrase telehealth_no_indicators text_lower "No"
      (let has_video := Py.any_in video_indicators text_lower in
       let has_phone := Py.any_in phone_indicators text_lower in
       if has_video && has_phone then "Yes - Both"
       else if has_video then "Yes - Video"
       else if has_phone then "Yes - Phone"
       else "Unknown").

(** [detect_sliding_scale] *)
Definition sliding_yes_indicators : list string :=
  [ "sliding scale"; "sliding fee"; "income-based"; "reduced fee";
    "reduced rate"; "financial hardship"; "ability to pay";
    "affordable rates" ].

Definition sliding_no_indicators : list string :=
  [ "no sliding scale"; "does not offer sliding"; "do not offer sliding" ].

Definition detect_sliding_scale (text : string) : string :=
  if Py.is_empty text then "Unknown"
  else
    let text_lower := Py.lower text in
    first_phrase sliding_no_indicators text_lower "No"
      (first_phrase sliding_yes_indicators text_lower "Yes" "Unknown").

(** [detect_telehealth_platform] *)
Definition platforms : list (string * list string) :=
  [ ("doxy.me", ["doxy"; "doxy.me"]); ("Zoom", ["zoom"]);
    ("SimplePractice", ["simplepractice"; "simple practice"]);
    ("TherapyNotes", ["therapynotes"; "therapy notes"]);
    ("VSee", ["vsee"]); ("Google Meet", ["google meet"]);
    ("Microsoft Teams", ["microsoft teams"; "ms teams"]);
    ("TheraNest", ["theranest"]); ("Jane App", ["jane app"; "janeapp"]) ].

Definition detect_telehealth_platform (text : string) : string :=
  if Py.is_empty text then ""
  else
    let text_lower := Py.lower text in
    Py.join ", "
      (map fst (filter (fun pk => Py.any_in (snd pk) text_lower) platforms)).

(** [standardize_phone]; a missing cell is not a [str]. *)
Definition standardize_phone (phone : cell) : string :=
  match phone with
  | NaN => ""
  | Str phone =>
      if Py.is_empty phone then ""
      else
        let digits := Py.filter_str Py.isdigit phone in
        let digits :=
          if (String.length digits =? 11)%nat && Py.startswith "1" digits
          then Py.drop 1 digits else digits in
        if negb (String.length digits =? 10)%nat then ""
        else "(" ++ Py.take 3 digits ++ ") "
             ++ Py.take 3 (Py.drop 3 digits) ++ "-" ++ Py.drop 6 digits
  end.

Definition STATE_MAP : list (string * string) :=
  [ ("alabama", "AL"); ("alaska", "AK"); ("arizona", "AZ"); ("arkansas", "AR");
    ("california", "CA"); ("colorado", "CO"); ("connecticut", "CT");
    ("delaware", "DE"); ("district of columbia", "DC"); ("florida", "FL");
    ("georgia", "GA"); ("hawaii", "HI"); ("idaho", "ID"); ("illinois", "IL");
    ("indiana", "IN"); ("iowa", "IA"); ("kansas", "KS"); ("kentucky", "KY");
    ("louisiana", "LA"); ("maine", "ME"); ("maryland", "MD");
    ("massachusetts", "MA"); ("michigan", "MI"); ("minnesota", "MN");
    ("mississippi", "MS"); ("missouri", "MO"); ("montana", "MT");
    ("nebraska", "NE"); ("nevada", "NV"); ("new hampshire", "NH");
    ("new jersey", "NJ"); ("new mexico", "NM"); ("new york", "NY");
    ("north carolina", "NC"); ("north dakota", "ND"); ("ohio", "OH");
    ("oklahoma", "OK"); ("oregon", "OR"); ("pennsylvania", "PA");
    ("rhode island", "RI"); ("south carolina", "SC"); ("south dakota", "SD");
    ("tennessee", "TN"); ("texas", "TX"); ("utah", "UT"); ("vermont", "VT");
    ("virginia", "VA"); ("washington", "WA"); ("west virginia", "WV");
    ("wisconsin", "WI"); ("wyoming", "WY") ].

(** [d.get(key, default)] *)
Fixpoint dict_get (d : list (string * string)) (key default : string) : string :=
  match d with
  | [] => default
  | (k, v) :: t => if String.eqb k key then v else dict_get t key default
  end.

Definition standardize_state (state : cell) : string :=
  match state with
  | NaN => ""
  | Str state =>
      if Py.is_empty state then ""
      else
        let state := Py.strip state in
        if (String.length state =? 2)%nat then Py.upper state
        else dict_get STATE_MAP (Py.lower state) (Py.take 2 (Py.upper state))
  end.

Definition word (alternatives : list string) : Re.regex :=
  Re.cat [Re.WordB; Re.Grp 1 (Re.alts (map Re.Lit alternatives)); Re.WordB].

Definition standardize_address (address : cell) : string :=
  match address with
  | NaN => ""
  | Str address =>
      if Py.is_empty address then ""
      else
        let address := Py.strip address in
        let clean (part : string) : string :=
          let part := Py.title (Py.strip part) in
          let part := Re.sub false (word ["Dc"]) (fun _ => "DC") part in
          let part := Re.sub false (word ["Md"]) (fun _ => "MD") part in
          let part := Re.sub false (word ["Va"]) (fun _ => "VA") part in
          let part := Re.sub false (word ["Nw"]) (fun _ => "NW") part in
          let part := Re.sub false (word ["Nw"; "Ne"; "Sw"; "Se"]) Py.upper part in
          Re.sub false
            (Re.cat [Re.WordB;
                     Re.Grp 1 (Re.cat [Re.Lit "Us"; Re.Opt (Re.Chr "a")]);
                     Re.WordB])
            Py.upper part in
        Py.join ", " (map clean (Py.split_on "," address))
  end.

Definition alnum (c : ascii) : bool := Py.isalpha c || Py.isdigit c.
Definition alnum_dash (c : ascii) : bool := alnum c || (c =? "-")%char.

(** The pattern of [is_valid_url]: [^https?://], then one or more labels
    [[a-zA-Z0-9]([a-zA-Z0-9-]{0,61}[a-zA-Z0-9])?\.], then [[a-zA-Z]{2,}],
    then optionally a slash and a run of non-space characters, then [$]. *)
Definition url_pattern : Re.regex :=
  Re.cat
    [ Re.Bol; Re.Lit "http"; Re.Opt (Re.Chr "s"); Re.Lit "://";
      Re.Plus
        (Re.cat
           [ Re.Cls alnum;
             Re.Opt (Re.cat [Re.Rep 0 61 (Re.Cls alnum_dash); Re.Cls alnum]);
             Re.Chr "." ]);
      Re.Rep 2 2 (Re.Cls Py.isalpha); Re.Star (Re.Cls Py.isalpha);
      Re.Opt (Re.cat [Re.Chr "/"; Re.Star (Re.Cls (fun c => negb (Py.isspace c)))]);
      Re.Eol ].

Definition is_valid_url (url : string) : bool :=
  if Py.is_empty url then false
  else
    match Re.match_start false url_pattern (Py.strip url) with
    | Some _ => true
    | None => false
    end.

Definition normalize_url (url : cell) : string :=
  match url with
  | NaN => ""
  | Str url =>
      if Py.is_empty url then ""
      else
        let url := Py.rstrip_slash (Py.strip url) in
        if Py.is_empty url then ""
        else if negb (Py.startswith "http://" url || Py.startswith "https://" url)
        then "https://" ++ url
        else url
  end.

(** [is_group_practice] *)
Definition group_indicators : list string :=
  [ "group"; "associates"; "& associates"; "center"; "centre"; "clinic";
    "institute"; "practice"; "services"; "wellness"; "counseling center";
    "therapy center"; "behavioral health"; "mental health services";
    "psychological services"; "partners"; "collective"; "collaborative" ].

Definition is_group_practice (name : string) : bool :=
  let name_lower := if Py.is_empty name then "" else Py.lower name in
  Py.any_in group_indicators name_lower.

(** One entry of the lists [insurance_providers], [specializations] and
    [therapy_approaches] of the configuration files. *)
Record entry : Type := mkEntry {
  canonical_name : string;
  aliases : list string
}.

(** [lookup[key] = value]: the value of a key the dict already has is
    replaced where the key stands; a new key goes to the end. *)
Fixpoint dict_set (lookup : lookup_table) (key value : string) : lookup_table :=
  match lookup with
  | [] => [(key, value)]
  | (k, v) :: more =>
      if String.eqb k key then (k, value) :: more
      else (k, v) :: dict_set more key value
  end.

(** The two nested loops [load_insurance_lookup], [load_specialization_lookup]
    and [load_approach_lookup] share, over the list each of them reads. *)
Definition load_lookup (entries : list entry) : lookup_table :=
  fold_left
    (fun lookup e =>
       fold_left
         (fun lookup alias =>
            dict_set lookup (Py.strip (Py.lower alias)) (canonical_name e))
         (aliases e) lookup)
    entries [].

(** [insurance_list.json] and [specializations.json], as parsed. *)
Record insurance_config : Type := mkInsuranceConfig {
  insurance_providers : list entry
}.

Record specializations_config : Type := mkSpecializationsConfig {
  specializations : list entry;
  therapy_approaches : list entry
}.

Definition load_insurance_lookup (config : insurance_config) : lookup_table :=
  load_lookup (insurance_providers config).

Definition load_specialization_lookup (config : specializations_config)
  : lookup_table :=
  load_lookup (specializations config).

Definition load_approach_lookup (config : specializations_config) : lookup_table :=
  load_lookup (therapy_approaches config).

End Utils.

(** ** [scripts/verify_licenses.py] *)

Module VerifyLicenses.

Definition credentials : list string :=
  [ "LCSW"; "LPC"; "LMFT"; "PsyD"; "PhD"; "MD"; "LCPC"; "LCMFT"; "MA"; "MS";
    "MSW"; "MEd"; "EdD"; "NCC"; "ACS"; "LICSW" ].

(** [r",?\s*(LCSW|LPC|...|LICSW)[-\w]*"] *)
Definition credential_pattern : Re.regex :=
  Re.cat
    [ Re.Opt (Re.Chr ","); Re.Star (Re.Cls Py.isspace);
      Re.Grp 1 (Re.alts (map Re.Lit credentials));
      Re.Star (Re.Cls (fun c => (c =? "-")%char || Py.isword c)) ].

Definition business_suffixes : list string :=
  [ "LLC"; "Inc"; "PLLC"; "PC"; "Associates"; "& Associates"; "Group";
    "Center"; "Practice" ].

(** [r"\b(LLC|Inc|...|Practice)\b"] *)
Definition business_pattern : Re.regex :=
  Re.cat [Re.WordB; Re.Grp 1 (Re.alts (map Re.Lit business_suffixes)); Re.WordB].

(** [r"^Dr\.?\s+"] *)
Definition honorific_pattern : Re.regex :=
  Re.cat [Re.Bol; Re.Lit "Dr"; Re.Opt (Re.Chr "."); Re.Plus (Re.Cls Py.isspace)].

Definition erase (_ : string) : string := "".

(** The name once credentials, business suffixes and a leading [Dr] have
    been removed: the value of [name] just before [name.split()]. *)
Definition stripped_name (name : string) : string :=
  let name := Py.strip (Re.sub true credential_pattern erase name) in
  let name := Py.strip (Re.sub true business_pattern erase name) in
  Re.sub true honorific_pattern erase name.

(** [LicenseVerifier._extract_name_parts] *)
Definition _extract_name_parts (name : string) : string * string :=
  if Py.is_empty name then ("", "")
  else
    let parts := Py.split (stripped_name name) in
    match parts with
    | [] => ("", "")
    | [only] => ("", only)
    | first :: _ => (first, last parts "")
    end.

(** What [session.get] does for one request: it raises a
    [requests.RequestException], or it returns a response. *)
Inductive response : Type :=
| RequestException (e : string)
| Response (status_code : nat) (text : string).

(** The dict [verify] returns. *)
Record verification : Type := mkVerification {
  verified : bool;
  license_number : string;
  license_type : string;
  license_status : string;
  verification_source : string;
  verification_notes : string
}.

(** What the three verifier classes differ in: the address queried, the
    names of the two query parameters, the parameters added to them, the
    source tag and the name of the board in the notes. *)
Record verifier : Type := mkVerifier {
  lookup_url : string;
  last_name_key : string;
  first_name_key : string;
  more_params : list (string * string);
  source : string;
  board : string
}.

Definition DCVerifier : verifier :=
  mkVerifier "https://doh.dc.gov/service/license-verification"
    "last_name" "first_name" [] "dc_doh" "DC DOH".

Definition MDVerifier : verifier :=
  mkVerifier "https://health.maryland.gov/bopc"
    "lastName" "firstName" [] "md_bopc" "MD BOPC".

Definition VAVerifier : verifier :=
  mkVerifier "https://dhp.virginia.gov/lookup/default"
    "lastName" "firstName" [("profession", "counseling")] "va_dhp" "VA DHP".

(** The em dash of the notes, as its three bytes in UTF-8. *)
Definition em_dash : string :=
  String "226" (String "128" (String "148" EmptyString)).

(** [f"{n}"] for a natural number. *)
Definition str_of_nat (n : nat) : string := NilZero.string_of_uint (Nat.to_uint n).

(** A request: the address and the query parameters. *)
Definition request : Type := string * list (string * string).

Section Session.

(** [self.session.get], an external collaborator. *)
Variable session_get : request -> response.

(** [BeautifulSoup(html, "html.parser").get_text()] *)
Variable get_text : string -> string.

(** [verify] of the three verifiers: the result, and the requests sent. *)
Definition verify (v : verifier) (name license_type : string)
  : verification * list request :=
let result (notes : string) : verification :=
  mkVerification false "" license_type "" (source v) notes in
let '(first_name, last_name) := _extract_name_parts name in
if Py.is_empty last_name then (result "Could not parse name", [])
else
  let req : request :=
    (lookup_url v,
     ((last_name_key v, last_name) :: (first_name_key v, first_name)
        :: more_params v)) in
  match session_get req with
  | Response status_code html =>
      if (status_code =? 200)%nat
      then
        let text := Py.lower (get_text html) in
        if Py.is_substring (Py.lower last_name) text
        then (result ("Name found in " ++ board v ++ " database " ++ em_dash
                      ++ " needs manual confirmation"), [req])
        else (result ("Name not found in " ++ board v ++ " search results"), [req])
      else (result (board v ++ " returned status " ++ str_of_nat status_code), [req])
  | RequestException e => (result ("Request error: " ++ e), [req])
  end.

End Session.

(** [get_verifier]: the verifier of a state, none for other states. *)
Definition get_verifier (state : string) : option verifier :=
  let key := Py.upper state in
  if String.eqb key "DC" then Some DCVerifier
  else if String.eqb key "MD" then Some MDVerifier
  else if String.eqb key "VA" then Some VAVerifier
  else None.

End VerifyLicenses.

(** ** pandas *)

Module Pandas.

Definition fillna (default : string) (c : cell) : string :=
  match c with NaN => default | Str s => s end.

(** Equality of cells as [duplicated] sees it: missing values are equal
    to each other. *)
Definition cell_eqb (a b : cell) : bool :=
  match a, b with
  | NaN, NaN => true
  | Str x, Str y => String.eqb x y
  | _, _ => false
  end.

Definition pair_eqb (a b : cell * cell) : bool :=
  cell_eqb (fst a) (fst b) && cell_eqb (snd a) (snd b).

(** [df[mask]]: the rows whose mask entry is true, in order. *)
Fixpoint select {A : Type} (mask : list bool) (l : list A) : list A :=
  match mask, l with
  | m :: ms, x :: xs => if m then x :: select ms xs else select ms xs
  | _, _ => []
  end.

Fixpoint zip_with {A B C : Type} (f : A -> B -> C) (l : list A) (l' : list B)
  : list C :=
  match l, l' with
  | x :: xs, y :: ys => f x y :: zip_with f xs ys
  | _, _ => []
  end.

Section Duplicated.
Context {K : Type} (eqb : K -> K -> bool).

(** [duplicated(keep="first")] on a column of keys: an entry is marked
    when an equal key stands before it. *)
Fixpoint duplicated_from (seen keys : list K) : list bool :=
  match keys with
  | [] => []
  | k :: t => existsb (eqb k) seen :: duplicated_from (k :: seen) t
  end.

Definition duplicated (keys : list K) : list bool := duplicated_from [] keys.

(** [drop_duplicates(subset=key, keep="first")] *)
Definition drop_duplicates {A : Type} (key : A -> K) (l : list A) : list A :=
  select (map negb (duplicated (map key l))) l.
End Duplicated.

(** A mask computed on [df[mask]], put back on the index of [df]: the rows
    outside [mask] have no entry, which [&] reads as false. *)
Fixpoint align (mask sub : list bool) : list bool :=
  match mask with
  | [] => []
  | true :: ms =>
      match sub with
      | d :: ds => d :: align ms ds
      | [] => false :: align ms []
      end
  | false :: ms => false :: align ms sub
  end.

(** The characters with a meaning of their own in a pattern. *)
Definition metachar (c : ascii) : bool :=
  existsb (Ascii.eqb c)
    (list_ascii_of_string ".^$*+?{}[]\|()").

Definition plain (pat : string) : bool :=
  forallb (fun c => negb (metachar c)) (list_ascii_of_string pat).

(** [re.compile(pat)] as [Series.str.contains] calls it: a pattern without
    metacharacters is the literal it spells.  Other patterns are outside
    the fragment embedded here and give [None]. *)
Definition compile (pat : string) : option Re.regex :=
  if plain pat then Some (Re.Lit pat) else None.

(** [col.str.contains(pat, na=False)] on a column of strings. *)
Definition str_contains (pat : string) (col : list string) : option (list bool) :=
  match compile pat with
  | Some r => Some (map (Re.search false r) col)
  | None => None
  end.

(** [for kw in kws: mask |= col.str.contains(kw.lower(), na=False)] *)
Fixpoint or_contains (kws : list string) (col : list string) (mask : list bool)
  : option (list bool) :=
  match kws with
  | [] => Some mask
  | kw :: more =>
      match str_contains (Py.lower kw) col with
      | Some hit => or_contains more col (zip_with orb mask hit)
      | None => None
      end
  end.

(** [col.str.extract(r"(\d{5})", expand=False)]: group 1 of the leftmost
    match, missing when there is none. *)
Definition extract_zip (s : string) : cell :=
  match Re.search_from false (Re.Grp 1 (Re.Rep 5 5 (Re.Cls Py.isdigit))) 0 None s with
  | Some (_, e) => Str (Re.group s e 1)
  | None => NaN
  end.

End Pandas.

(** ** [scripts/clean_data.py] *)

Module CleanData.
Import Pandas.

(** One listing, after [normalize_columns]: the columns the cleaning steps
    read or rewrite.  The rating and coordinate columns are carried along
    untouched by the steps embedded here and are left out. *)
Record row : Type := mkRow {
  therapist_name : cell;
  address : cell;
  phone : cell;
  place_id : cell;
  category : cell;
  status : cell;
  state : cell;
  website : cell;
  zip_code : cell
}.

(** A data frame: the names of the columns the export had, and the rows.
    The field of a row is looked at only when its column is present. *)
Record DataFrame : Type := mkFrame {
  columns : list string;
  rows : list row
}.

(** [col in df.columns] *)
Definition has (col : string) (df : DataFrame) : bool :=
  existsb (String.eqb col) (columns df).

(** The configuration [filter_keywords.json]. *)
Record keywords : Type := mkKeywords {
  exclude_name_contains : list string;
  exclude_category_contains : list string;
  include_category_contains : list string;
  exclude_permanently_closed_indicators : list string
}.

(** The three temporary key columns of [remove_duplicates].  A column the
    frame lacks yields an empty series, hence a key missing on every row. *)
Definition _name_key (r : row) : cell :=
  match therapist_name r with
  | NaN => NaN
  | Str s => Str (Py.strip (Py.lower s))
  end.

Definition _addr_key (df : DataFrame) (r : row) : cell :=
  if has "address" df
  then Str (Py.strip (Py.lower (fillna "" (address r))))
  else NaN.

Definition _phone_key (df : DataFrame) (r : row) : cell :=
  if has "phone" df
  then Str (Py.filter_str Py.isdigit (fillna "" (phone r)))
  else NaN.

(** [df["_phone_key"].str.len() >= 10] *)
Definition phone_mask (df : DataFrame) (r : row) : bool :=
  match _phone_key df r with
  | NaN => false
  | Str digits => (10 <=? String.length digits)%nat
  end.

(** Phase 1: [drop_duplicates(subset=["place_id"], keep="first")], run
    only when the frame has the column. *)
Definition dedupe_place_id (df : DataFrame) (l : list row) : list row :=
  if has "place_id" df then drop_duplicates cell_eqb place_id l else l.

(** Phase 2: by name and address. *)
Definition dedupe_name_addr (df : DataFrame) (l : list row) : list row :=
  drop_duplicates pair_eqb (fun r => (_name_key r, _addr_key df r)) l.

(** Phase 3: by name and phone, among the rows whose phone key has at
    least ten digits. *)
Definition dedupe_name_phone (df : DataFrame) (l : list row) : list row :=
  let mask := map (phone_mask df) l in
  let dupes :=
    duplicated pair_eqb
      (map (fun r => (_name_key r, _phone_key df r)) (select mask l)) in
  select (map negb (zip_with andb mask (align mask dupes))) l.

Definition remove_duplicates (df : DataFrame) : DataFrame :=
  {| columns := columns df;
     rows := dedupe_name_phone df (dedupe_name_addr df (dedupe_place_id df (rows df))) |}.

Definition name_col (df : DataFrame) : list string :=
  map (fun r => Py.lower (fillna "" (therapist_name r))) (rows df).

(** The column [col] lowercased, a missing cell read as the empty string;
    a column of empty strings when the frame has no such column. *)
Definition col_or_blank (col : string) (get : row -> cell) (df : DataFrame)
  : list string :=
  map (fun r => if has col df then Py.lower (fillna "" (get r)) else "") (rows df).

Definition all_false (df : DataFrame) : list bool := map (fun _ => false) (rows df).

(** [filter_non_therapists]; [None] stands for the exception a keyword
    that does not compile raises. *)
Definition filter_non_therapists (kw : keywords) (df : DataFrame)
  : option DataFrame :=
  let cat_col := col_or_blank "category" category df in
  match or_contains (exclude_name_contains kw) (name_col df) (all_false df) with
  | None => None
  | Some name_exclude =>
  match or_contains (exclude_category_contains kw) cat_col (all_false df) with
  | None => None
  | Some cat_exclude =>
  match or_contains (include_category_contains kw) cat_col (all_false df) with
  | None => None
  | Some cat_include =>
      let exclude_mask :=
        zip_with andb (zip_with orb name_exclude cat_exclude)
                 (map negb cat_include) in
      Some {| columns := columns df;
              rows := select (map negb exclude_mask) (rows df) |}
  end end end.

(** [closed_mask |= status_col...; closed_mask |= name_col...] for every
    indicator in turn. *)
Fixpoint closed_mask (indicators : list string) (status_col names : list string)
  (mask : list bool) : option (list bool) :=
  match indicators with
  | [] => Some mask
  | ind :: more =>
      match str_contains (Py.lower ind) status_col with
      | None => None
      | Some in_status =>
          match str_contains (Py.lower ind) names with
          | None => None
          | Some in_name =>
              closed_mask more status_col names
                (zip_with orb (zip_with orb mask in_status) in_name)
          end
      end
  end.

Definition remove_closed (kw : keywords) (df : DataFrame) : option DataFrame :=
  match closed_mask (exclude_permanently_closed_indicators kw)
          (col_or_blank "status" status df) (name_col df) (all_false df) with
  | None => None
  | Some mask =>
      Some {| columns := columns df; rows := select (map negb mask) (rows df) |}
  end.

(** The website column of [standardize_fields]: normalise, then blank the
    values that are not empty and not valid. *)
Definition standardize_website (c : cell) : string :=
  let url := Utils.normalize_url c in
  if Py.is_empty url then url
  else if Utils.is_valid_url url then url else "".

(** [standardize_fields] on one row; each column is rewritten only when
    the frame has it. *)
Definition standardize_row (df : DataFrame) (r : row) : row :=
  {| therapist_name := therapist_name r;
     address := if has "address" df
                then Str (Utils.standardize_address (address r)) else address r;
     phone := if has "phone" df
              then Str (Utils.standardize_phone (phone r)) else phone r;
     place_id := place_id r;
     category := category r;
     status := status r;
     state := if has "state" df
              then Str (Utils.standardize_state (state r)) else state r;
     website := if has "website" df
                then Str (standardize_website (website r)) else website r;
     zip_code := if has "zip_code" df
                 then Str (fillna "" (extract_zip (fillna "" (zip_code r))))
                 else zip_code r |}.

Definition standardize_fields (df : DataFrame) : DataFrame :=
  {| columns := columns df; rows := map (standardize_row df) (rows df) |}.

(** Steps 1 to 4 of [main], in the order [main] runs them. *)
Definition clean (kw : keywords) (df : DataFrame) : option DataFrame :=
  match remove_closed kw df with
  | None => None
  | Some df =>
      match filter_non_therapists kw df with
      | None => None
      | Some df => Some (standardize_fields (remove_duplicates df))
      end
  end.

End CleanData.

(** ** [scripts/enrich_data.py] *)

Module EnrichData.

(** The values an enrichment field takes: a string, [None] or an integer. *)
Inductive value : Type :=
| VStr (s : string)
| VNone
| VInt (z : Z).

(** A Python [dict] with string keys, in insertion order. *)
Definition dict : Type := list (string * value).

Fixpoint get (d : dict) (key : string) : option value :=
  match d with
  | [] => None
  | (k, v) :: t => if String.eqb k key then Some v else get t key
  end.

Definition ENRICHMENT_FIELDS : list string :=
  [ "insurance_accepted"; "sliding_scale"; "price_range_min";
    "price_range_max"; "specializations"; "therapy_approaches"; "telehealth";
    "telehealth_platform"; "accepting_new_patients"; "education";
    "languages"; "profile_image_url"; "bio_summary" ].

(** The comprehension that maps every one of [ENRICHMENT_FIELDS] to the
    empty string. *)
Definition blank_fields : dict := map (fun field => (field, VStr "")) ENRICHMENT_FIELDS.

Definition newline : ascii := "010".
Definition dquote : ascii := "034".
Definition squote : ascii := "039".

Definition not_newline (c : ascii) : bool := negb (c =? newline)%char.
Definition colon_or_space (c : ascii) : bool := (c =? ":")%char || Py.isspace c.
Definition not_newline_comma (c : ascii) : bool :=
  negb (c =? newline)%char && negb (c =? ",")%char.

(** An abbreviation of a degree, each letter optionally followed by a
    full stop: [M\.?A\.?], [Ph\.?D\.?] and so on. *)
Definition dotted (letters : list string) : Re.regex :=
  Re.cat (map (fun l => Re.Seq (Re.Lit l) (Re.Opt (Re.Chr "."))) letters).

Definition edu_patterns : list (bool * Re.regex) :=
  [ (true,
     Re.cat [ Re.alts (map Re.Lit ["education"; "credentials"; "degree";
                                   "training"; "qualifications"]);
              Re.Star (Re.Cls colon_or_space);
              Re.Grp 1 (Re.Rep 10 200 (Re.Cls not_newline)) ]);
    (false,
     Re.cat [ Re.alts (map Re.Lit ["earned"; "received"; "graduated"; "completed"]);
              Re.Plus (Re.Cls Py.isspace);
              Re.Opt (Re.Alt (Re.Seq (Re.Chr "a") (Re.Plus (Re.Cls Py.isspace)))
                             (Re.Seq (Re.Lit "an") (Re.Plus (Re.Cls Py.isspace))));
              Re.Grp 1 (Re.Rep 10 150 (Re.Cls not_newline)) ]);
    (false,
     Re.Grp 1
       (Re.cat [ Re.alts [ dotted ["M"; "A"]; dotted ["M"; "S"]; dotted ["Ph"; "D"];
                           dotted ["Psy"; "D"]; dotted ["M"; "D"]; dotted ["Ed"; "D"];
                           dotted ["M"; "S"; "W"]; dotted ["B"; "A"]; dotted ["B"; "S"] ];
                 Re.Plus (Re.Cls Py.isspace);
                 Re.Opt (Re.Seq (Re.Lit "in") (Re.Plus (Re.Cls Py.isspace)));
                 Re.Rep 5 100 (Re.Cls not_newline_comma) ])) ].

(** [re.findall] for a pattern with one group, under [re.IGNORECASE]. *)
Definition findall1 (r : Re.regex) (text : string) : list string :=
  map (fun m => Re.group text (snd m) 1) (Re.finditer true r text).

Definition trailing_punct (c : ascii) : bool :=
  (c =? ".")%char || (c =? ",")%char || (c =? ";")%char.

(** The inner loop of [extract_education] over the matches of one pattern. *)
Fixpoint collect (matches findings : list string) : list string :=
  match matches with
  | [] => findings
  | m :: more =>
      let cleaned := Py.rstrip_by trailing_punct (Py.strip m) in
      if (10 <? String.length cleaned)%nat
         && negb (existsb (String.eqb cleaned) findings)
      then collect more (findings ++ [cleaned])
      else collect more findings
  end.

(** The first pattern (the one starting with [(?:education]) is run on the
    lowercased text, the others on the text as it is. *)
Definition extract_education (text : string) : string :=
  if Py.is_empty text then ""
  else
    let text_lower := Py.lower text in
    let findings :=
      fold_left
        (fun (findings : list string) (pat : bool * Re.regex) =>
           collect (findall1 (snd pat) (if fst pat then text_lower else text))
                   findings)
        edu_patterns [] in
    match findings with
    | [] => ""
    | _ => Py.join "; " (firstn 3 findings)
    end.

Definition language_map : list (string * string) :=
  [ ("english", "English"); ("spanish", "Spanish"); ("espanol", "Spanish");
    ("mandarin", "Mandarin"); ("chinese", "Mandarin"); ("korean", "Korean");
    ("vietnamese", "Vietnamese"); ("french", "French"); ("arabic", "Arabic");
    ("amharic", "Amharic"); ("asl", "ASL"); ("american sign language", "ASL");
    ("sign language", "ASL"); ("portuguese", "Portuguese"); ("hindi", "Hindi");
    ("urdu", "Urdu"); ("tagalog", "Tagalog"); ("farsi", "Farsi");
    ("persian", "Farsi"); ("russian", "Russian"); ("japanese", "Japanese");
    ("german", "German"); ("italian", "Italian");
    ("haitian creole", "Haitian Creole"); ("creole", "Haitian Creole") ].

(** [extract_languages].  The keyword spelt with an n-tilde lies outside
    the modelled alphabet and is left out of [language_map]. *)
Definition extract_languages (text : string) : list string :=
  if Py.is_empty text then []
  else
    let text_lower := Py.lower text in
    Coll.sorted
      (fold_left
         (fun (found : list string) (entry : string * string) =>
            if Py.is_substring (fst entry) text_lower
            then Coll.set_add (snd entry) found else found)
         language_map []).

Definition quote (c : ascii) : bool := (c =? dquote)%char || (c =? squote)%char.
Definition not_quote (c : ascii) : bool := negb (quote c).
Definition not_gt (c : ascii) : bool := negb (c =? ">")%char.

(** One of the attribute [names], an equals sign, a quote, and a quoted
    value that contains one of the keywords, up to its closing quote. *)
Definition attr_with (names keywords_ : list string) : Re.regex :=
  Re.cat [ Re.alts (map Re.Lit names); Re.Chr "="; Re.Cls quote;
           Re.Star (Re.Cls not_quote); Re.alts (map Re.Lit keywords_);
           Re.Star (Re.Cls not_quote); Re.Cls quote ].

(** The [src] attribute; group 1 is its quoted value. *)
Definition src_attr : Re.regex :=
  Re.cat [ Re.Lit "src="; Re.Cls quote; Re.Grp 1 (Re.Plus (Re.Cls not_quote));
           Re.Cls quote ].

Definition photo_words : list string :=
  ["profile"; "headshot"; "photo"; "avatar"; "therapist"; "portrait"].

Definition img_patterns : list Re.regex :=
  [ Re.cat [ Re.Lit "<img"; Re.Plus (Re.Cls not_gt);
             attr_with ["class"; "id"] photo_words;
             Re.Plus (Re.Cls not_gt); src_attr ];
    Re.cat [ Re.Lit "<img"; Re.Plus (Re.Cls not_gt); src_attr;
             Re.Plus (Re.Cls not_gt); attr_with ["class"; "id"] photo_words ];
    Re.cat [ Re.Lit "<img"; Re.Plus (Re.Cls not_gt);
             attr_with ["alt"] ["photo"; "headshot"; "profile"];
             Re.Plus (Re.Cls not_gt); src_attr ] ].

(** What the crawler's [arun] does for one URL: it raises, or it returns a
    result with its [success] flag and its two text fields ([None] and the
    empty string both read as false, and are one value here). *)
Inductive crawl_outcome : Type :=
| Raises
| Returns (success : bool) (markdown extracted_content : string).

Section Collaborators.

(** [urlparse(url)] reduced to what the script formats from it:
  [f"{parsed.scheme}://{parsed.netloc}"]. *)
Variable origin : string -> string.

(** The crawler, an external collaborator. *)
Variable arun : cell -> crawl_outcome.

(** [crawl_website]: the text of the page, or [None] on any failure. *)
Definition crawl_website (url : cell) : option string :=
match arun url with
| Raises => None
| Returns true markdown extracted_content =>
    Some (if negb (Py.is_empty markdown) then markdown
          else if negb (Py.is_empty extracted_content) then extracted_content
          else "")
| Returns false _ _ => None
end.

Fixpoint first_image (patterns : list Re.regex) (html url : string) : string :=
match patterns with
| [] => ""
| pattern :: more =>
    match Re.search_from true pattern 0 None html with
    | Some (_, e) =>
        let img_url := Re.group html e 1 in
        if Py.startswith "/" img_url then origin url ++ img_url else img_url
    | None => first_image more html url
    end
end.

Definition extract_profile_image (html_content url : string) : string :=
if Py.is_empty html_content then "" else first_image img_patterns html_content url.

Definition joined (names : list string) : value :=
match names with [] => VStr "" | _ => VStr (Py.join ", " names) end.

Definition price (p : option Z) : value :=
match p with Some z => VInt z | None => VNone end.

Definition enrich_from_text (text html url : string)
(insurance_lookup spec_lookup approach_lookup : Utils.lookup_table) : dict :=
let prices := Utils.extract_price_range text in
[ ("insurance_accepted", joined (Utils.match_insurance text insurance_lookup));
  ("sliding_scale", VStr (Utils.detect_sliding_scale text));
  ("price_range_min", price (fst prices));
  ("price_range_max", price (snd prices));
  ("specializations", joined (Utils.match_specializations text spec_lookup));
  ("therapy_approaches", joined (Utils.match_specializations text approach_lookup));
  ("telehealth", VStr (Utils.detect_telehealth text));
  ("telehealth_platform", VStr (Utils.detect_telehealth_platform text));
  ("accepting_new_patients", VStr (Utils.detect_accepting_patients text));
  ("education", VStr (extract_education text));
  ("languages", joined (extract_languages text));
  ("profile_image_url", VStr (extract_profile_image html url));
  ("bio_summary", VStr (if Py.is_empty text then "" else Py.take 500 (Py.strip text))) ].

(** [row.get] of the website, the empty string when there is no column. *)
Definition website_of (df : CleanData.DataFrame) (r : CleanData.row) : cell :=
if CleanData.has "website" df then CleanData.website r else Str "".

(** [not url]: only the empty string is false; a missing cell is not. *)
Definition falsy (c : cell) : bool :=
match c with Str s => Py.is_empty s | NaN => false end.

(** The text a URL cell is formatted to when it is passed on as a string. *)
Definition url_text (c : cell) : string :=
match c with Str s => s | NaN => "nan" end.

(** The body of the loop of [process_batch] for one row. *)
Definition process_row (df : CleanData.DataFrame)
(insurance_lookup spec_lookup approach_lookup : Utils.lookup_table)
(r : CleanData.row) : dict :=
let url := website_of df r in
if falsy url then blank_fields
else
  match crawl_website url with
  | None => blank_fields
  | Some text =>
      enrich_from_text text text (url_text url)
        insurance_lookup spec_lookup approach_lookup
  end.



End Collaborators.

(** The truth value of [row.get(field)]: a missing key gives [None]. *)
Definition truthy (v : option value) : bool :=
  match v with
  | Some (VStr s) => negb (Py.is_empty s)
  | Some (VInt z) => negb (z =? 0)%Z
  | Some VNone => false
  | None => false
  end.

(** The status [main] gives a record from its enrichment fields. *)
Definition enrichment_status (row : dict) : string :=
  if truthy (get row "insurance_accepted") then "enriched_full"
  else if existsb (fun f => truthy (get row f))
            ["specializations"; "telehealth"; "accepting_new_patients"]
  then "enriched_basic"
  else "cleaned".

End EnrichData.

(** ** [scripts/prepare_import.py] *)

Module PrepareImport.

(** [s.strip(chars)] for a class of characters. *)
Definition strip_by (p : ascii -> bool) (s : string) : string :=
  Py.rstrip_by p (Py.lstrip_by p s).

Definition hyphen (c : ascii) : bool := (c =? "-")%char.

(** The class [[a-z0-9\s-]], whose complement the first substitution of
    [generate_slug] removes. *)
Definition slug_keep (c : ascii) : bool :=
  Py.islower c || Py.isdigit c || Py.isspace c || hyphen c.

(** The body of the loop of [generate_slug] for one part that is a
    non-empty [str]: the three substitutions and the final [strip("-")]. *)
Definition clean_part (part : string) : string :=
  let cleaned :=
    Re.sub false (Re.Cls (fun c => negb (slug_keep c))) (fun _ => "")
      (Py.strip (Py.lower part)) in
  let cleaned := Re.sub false (Re.Plus (Re.Cls Py.isspace)) (fun _ => "-") cleaned in
  strip_by hyphen (Re.sub false (Re.Plus (Re.Chr "-")) (fun _ => "-") cleaned).

(** [generate_slug]; a missing cell is not a [str] and is passed over, as
    is an empty one. *)
Definition generate_slug (name city state : cell) : string :=
  let parts :=
    fold_left
      (fun (parts : list string) (part : cell) =>
         match part with
         | NaN => parts
         | Str part =>
             if Py.is_empty part then parts
             else
               let cleaned := clean_part part in
               if Py.is_empty cleaned then parts else (parts ++ [cleaned])%list
         end)
      [name; city; state] [] in
  Py.join "-" parts.

(** [format_multiselect] *)
Definition format_multiselect (value : cell) : string :=
  match value with
  | NaN => ""
  | Str value =>
      if Py.is_empty value then ""
      else
        let items :=
          map Py.strip
            (filter (fun item => negb (Py.is_empty (Py.strip item)))
                    (Py.split_on "," value)) in
        Py.join ", " items
  end.

End PrepareImport.

(** ** [scripts/outscraper_pull.py] *)

Module OutscraperPull.

Definition underscore (c : ascii) : bool := (c =? "_")%char.

(** The class [[a-z0-9]]. *)
Definition slug_char (c : ascii) : bool := Py.islower c || Py.isdigit c.

(** [slugify] *)
Definition slugify (text : string) : string :=
  let text := Py.strip (Py.lower text) in
  let text :=
    Re.sub false (Re.Plus (Re.Cls (fun c => negb (slug_char c)))) (fun _ => "_") text in
  PrepareImport.strip_by underscore text.

(** An element of the list the API client returns: the list of records of
    one query, or a record (named here by its place). *)
Inductive item : Type :=
| Records (records : list string)
| Record_ (place : string).

(** A value the client returns, as far as [pull_google_maps] looks into
    it: a list, or anything else. *)
Inductive results : Type :=
| NotAList
| ListOf (items : list item).

(** One call of [client.google_maps_search]: it raises or it returns. *)
Inductive reply : Type :=
| Fails (e : string)
| Replies (r : results).

(** What [pull_google_maps] comes to: the records it returns, or the
    [UnboundLocalError] of reading [results] when no call was made. *)
Inductive pulled : Type :=
| UnboundLocalError
| Returned (records : list item).

(** The records taken from the results: the first list of a list of
    lists, the list itself otherwise, nothing when the results are empty
    or not a list. *)
Definition records_of (r : results) : list item :=
  match r with
  | ListOf (Records first :: _) => map Record_ first
  | ListOf (x :: items) => x :: items
  | _ => []
  end.

(** The state the loop threads: the calls made and the seconds slept
    between them. *)
Record effects : Type := mkEffects {
  calls : nat;
  sleeps : list nat
}.

Section Client.

(** The reply to the [n]-th call, counted from 1. *)
Variable google_maps_search : nat -> reply.

(** The loop [for attempt in range(1, max_retries + 1)] with [remaining]
  rounds to go, [attempt] being the number of the next one. *)
Fixpoint attempts (remaining attempt max_retries : nat) (fx : effects)
: pulled * effects :=
match remaining with
| O => (UnboundLocalError, fx)
| S remaining' =>
    let fx := mkEffects (S (calls fx)) (sleeps fx) in
    match google_maps_search attempt with
    | Replies r => (Returned (records_of r), fx)
    | Fails _ =>
        if (attempt <? max_retries)%nat
        then attempts remaining' (S attempt) max_retries
               (mkEffects (calls fx) (sleeps fx ++ [10 * attempt])%list)
        else (Returned [], fx)
    end
end.

Definition pull_google_maps (max_retries : nat) : pulled * effects :=
attempts max_retries 1 max_retries (mkEffects 0 []).

End Client.

End OutscraperPull.

(** ** Vocabulary of the specification

    The notions the specification words its properties with, stated on
    their own so that the embedded code can be compared with them. *)

Module Spec.

(** *** Phrases and ranked rules *)

(** [phrase] occurs in [text] as a contiguous substring. *)
Definition occurs_in (phrase text : string) : Prop :=
  exists before after, text = before ++ phrase ++ after.

(** Case-insensitive occurrence of a lowercase phrase: it occurs in the
    lowercased text. *)
Definition mentions (text phrase : string) : Prop :=
  occurs_in phrase (Py.lower text).

(** Some phrase of the list is mentioned. *)
Definition mentions_any (text : string) (phrases : list string) : Prop :=
  exists phrase, In phrase phrases /\ mentions text phrase.

(** A ranked list of rules, each a verdict with the phrases that trigger
    it.  [decides rules default text v]: [v] is the verdict of the first
    rule with a phrase mentioned in [text], or [default] when no rule has. *)
Definition rule : Type := string * list string.

Inductive decides (default : string) (text : string)
  : list rule -> string -> Prop :=
| decides_default : decides default text [] default
| decides_here : forall verdict phrases rest,
    mentions_any text phrases ->
    decides default text ((verdict, phrases) :: rest) verdict
| decides_later : forall verdict phrases rest v,
    ~ mentions_any text phrases ->
    decides default text rest v ->
    decides default text ((verdict, phrases) :: rest) v.

(** Accepting-patients classifier: negative, then waitlist, then positive. *)
Definition accepting_rules : list rule :=
  [ ("No", Utils.no_indicators); ("Waitlist", Utils.waitlist_indicators);
    ("Yes", Utils.yes_indicators) ].

(** License-type guesser: the eight marked types in priority order. *)
Definition license_rules : list rule :=
  [ ("MD/Psychiatrist", ["psychiatr"; ", md"; "m.d."]);
    ("PsyD", ["psyd"; "psy.d"]);
    ("PhD", ["ph.d"; "phd"; "psychologist"]);
    ("LCSW", ["lcsw"; "lcsw-c"]);
    ("LCPC", ["lcpc"]);
    ("LPC", ["lpc"]);
    ("LCMFT", ["lcmft"]);
    ("LMFT", ["lmft"; "marriage and family"]) ].

Definition license_types : list string :=
  [ "MD/Psychiatrist"; "PsyD"; "PhD"; "LCSW"; "LCPC"; "LPC"; "LCMFT"; "LMFT"; "" ].

(** The executable reading of [decides]. *)
Fixpoint first_rule (rules : list rule) (default text_lower : string) : string :=
  match rules with
  | [] => default
  | (verdict, phrases) :: rest =>
      if Py.any_in phrases text_lower then verdict
      else first_rule rest default text_lower
  end.

(** *** Filters and the order of the cleaning steps *)

(** Case-insensitive substring test of a phrase against a field. *)
Definition phrase_in (phrase field : string) : bool :=
  Py.is_substring (Py.lower phrase) (Py.lower field).


(** The name and the category of a record as text, a missing value being
    the empty text. *)
Definition name_text (r : CleanData.row) : string :=
  Pandas.fillna "" (CleanData.therapist_name r).



(** Keywords that spell plain phrases: no character with a meaning of its
    own in a pattern. *)
Definition plain_list (phrases : list string) : Prop :=
  Forall (fun phrase => Pandas.plain phrase = true) phrases.

Definition status_text (df : CleanData.DataFrame) (r : CleanData.row) : string :=
  if CleanData.has "status" df then Pandas.fillna "" (CleanData.status r) else "".

(** Closed-business filter: an indicator phrase occurs in the status or
    in the name. *)
Definition closed (kw : CleanData.keywords) (df : CleanData.DataFrame)
  (r : CleanData.row) : bool :=
  existsb
    (fun phrase => phrase_in phrase (status_text df r) || phrase_in phrase (name_text r))
    (CleanData.exclude_permanently_closed_indicators kw).




Definition sample_keywords : CleanData.keywords :=
  CleanData.mkKeywords ["center"; "hospital"] ["pharmacy"]
    ["therapy"; "counselor"] ["permanently closed"].

(** Three distinct listings, two of them without a place identifier. *)
Definition unidentified_batch : CleanData.DataFrame :=
  CleanData.mkFrame ["therapist_name"; "address"; "phone"; "place_id"]
    [ CleanData.mkRow (Str "Ann Lee") (Str "9 Elm St") (Str "2025550111")
        (Str "ChIJ-ann") NaN NaN NaN NaN NaN;
      CleanData.mkRow (Str "Jane Doe") (Str "123 Main St") (Str "2025550100")
        NaN NaN NaN NaN NaN NaN;
      CleanData.mkRow (Str "John Roe") (Str "456 Oak Ave") (Str "3015550199")
        NaN NaN NaN NaN NaN NaN ].

(** *** The price pattern *)







(** *** The alias rule *)

Definition first_char (s : string) : option ascii :=
  match s with String x _ => Some x | EmptyString => None end.

(** A word boundary between two adjacent pieces of a text: exactly one of
    the last character of [before] and the first of [after] is a word
    character (a missing neighbour is not). *)
Definition at_word_boundary (before after : string) : bool :=
  xorb (Re.word_opt (Re.last_of before None)) (Re.word_opt (first_char after)).

(** [alias] occurs in [text] with a word boundary on both sides. *)
Definition word_occurs (alias text : string) : Prop :=
  exists before after,
    text = before ++ alias ++ after
    /\ at_word_boundary before (alias ++ after) = true
    /\ at_word_boundary (before ++ alias) after = true.

(** The rule for one alias: at a word boundary when it has at most three
    characters, anywhere otherwise; in the lowercased text. *)
Definition alias_rule (alias text : string) : Prop :=
  if (String.length alias <=? 3)%nat
  then word_occurs alias (Py.lower text)
  else occurs_in alias (Py.lower text).

(** Ascending order of strings. *)
Definition ascending (a b : string) : Prop := String.leb a b = true.

End Spec.

(** ** Further vocabulary *)

Module More.

(** [l] with some elements left out, the others in their order. *)
Inductive subsequence {A : Type} : list A -> list A -> Prop :=
| sub_nil : subsequence [] []
| sub_skip : forall x l l', subsequence l l' -> subsequence l (x :: l')
| sub_keep : forall x l l', subsequence l l' -> subsequence (x :: l) (x :: l').


(** [s.endswith(c)] for one character. *)
Definition ends_with (c : ascii) (s : string) : bool :=
  match Re.last_of s None with
  | Some x => (x =? c)%char
  | None => false
  end.

(** The assignments [lookup[key] = canonical] the loops of a lookup
    builder make, in the order they make them. *)
Definition assignments (entries : list Utils.entry) : list (string * string) :=
  flat_map
    (fun e =>
       map (fun alias => (Py.strip (Py.lower alias), Utils.canonical_name e))
           (Utils.aliases e))
    entries.

(** The value of the last assignment to [key], if there is one. *)
Fixpoint last_value (key : string) (l : list (string * string)) : option string :=
  match l with
  | [] => None
  | (k, v) :: more =>
      match last_value key more with
      | Some v' => Some v'
      | None => if String.eqb k key then Some v else None
      end
  end.

(** The digits [standardize_phone] keeps of a phone number: all of them,
    less a leading 1 when there are eleven. *)
Definition phone_digits (phone : string) : string :=
  let digits := Py.filter_str Py.isdigit phone in
  if (String.length digits =? 11)%nat && Py.startswith "1" digits
  then Py.drop 1 digits else digits.

(** Ten digits laid out as (NNN) NNN-NNNN. *)
Definition phone_format (d : string) : string :=
  "(" ++ Py.take 3 d ++ ") " ++ Py.take 3 (Py.drop 3 d) ++ "-" ++ Py.drop 6 d.

(** The assignments of a list of (key, value) pairs made one after the
    other on a dict. *)
Definition assign_all (l : list (string * string)) (d : Utils.lookup_table)
  : Utils.lookup_table :=
  fold_left (fun d kv => Utils.dict_set d (fst kv) (snd kv)) l d.

(** Every maximal run of characters of the class [p] replaced by [d]. *)
Fixpoint squeeze (p : ascii -> bool) (d : string) (s : string) : string :=
  match s with
  | EmptyString => EmptyString
  | String c t =>
      if p c
      then if Re.starts p t then squeeze p d t else d ++ squeeze p d t
      else String c (squeeze p d t)
  end.

(** No two characters of the class [p] stand side by side. *)
Fixpoint no_double (p : ascii -> bool) (s : string) : bool :=
  match s with
  | EmptyString => true
  | String c t => negb (p c && Re.starts p t) && no_double p t
  end.

(** The last character of [s] is in the class [p]. *)
Definition ends (p : ascii -> bool) (s : string) : bool :=
  match Re.last_of s None with
  | Some x => p x
  | None => false
  end.

(** A match of one or more characters of the class [p] at the start of
    [s]: the longest run, when [s] starts with one. *)
Definition run_at (p : ascii -> bool) (p0 : nat) (pv : option ascii) (s : string)
  : option Re.cursor :=
  match s with
  | EmptyString => None
  | String x t =>
      if p x
      then let (a, b) := Re.span p t in
           Some (Re.moved (String x a) b (Re.mkCursor p0 pv s []))
      else None
  end.

(** A string of characters of the class [q] in which the separators [u]
    stand alone and neither first nor last. *)
Record tidy (q u : ascii -> bool) (s : string) : Prop := mkTidy {
  tidy_all : Re.all q s = true;
  tidy_single : no_double u s = true;
  tidy_starts : Re.starts u s = false;
  tidy_ends : ends u s = false
}.

(** The characters of a listing slug and of a file-name slug. *)
Definition slug_final (c : ascii) : bool :=
  Py.islower c || Py.isdigit c || PrepareImport.hyphen c.

Definition slugify_final (c : ascii) : bool :=
  OutscraperPull.slug_char c || OutscraperPull.underscore c.

Definition not_comma (c : ascii) : bool := negb (c =? ",")%char.

(** An item of a multiselect value: not empty, without spaces around it
    and without a comma. *)
Definition item_ok (item : string) : Prop :=
  item <> "" /\ Py.strip item = item /\ Re.all not_comma item = true.

(** The pattern of the zip column: five digits, recorded as group 1. *)
Definition zip_pattern : Re.regex := Re.Grp 1 (Re.Rep 5 5 (Re.Cls Py.isdigit)).

End More.

(* ================================================================== *)
(** * Properties *)

(** ** Strings *)

Lemma prefix_app (p s : string) :
  String.prefix p s = true <-> exists after, s = p ++ after.
Proof.
  revert s; induction p as [|c p IH]; intros s; simpl.
  - destruct s; split; intros; eauto.
  - destruct s as [|d s].
    + split; [discriminate | intros [a Ha]; discriminate].
    + simpl. destruct (ascii_dec c d) as [->|Hcd].
      * rewrite IH. split; intros [a Ha]; exists a.
        -- now subst.
        -- simpl in Ha. now inversion Ha.
      * split; [discriminate | intros [a Ha]; simpl in Ha; inversion Ha; subst; contradiction].
Qed.

Lemma is_substring_occurs (p s : string) :
  Py.is_substring p s = true <-> Spec.occurs_in p s.
Proof.
  unfold Spec.occurs_in. induction s as [|c s IH].
  - cbn [Py.is_substring]. rewrite orb_false_r, prefix_app. split.
    + intros [a Ha]. exists "", a. exact Ha.
    + intros [b [a Ha]]. destruct b; [eauto|discriminate].
  - cbn [Py.is_substring]. rewrite orb_true_iff, prefix_app, IH. split.
    + intros [[a Ha] | [b [a Ha]]].
      * exists "", a. exact Ha.
      * exists (String c b), a. simpl. now rewrite Ha.
    + intros [b [a Ha]]. destruct b as [|d b].
      * left. exists a. exact Ha.
      * right. simpl in Ha. inversion Ha. eauto.
Qed.

Lemma any_in_mentions (phrases : list string) (text : string) :
  Py.any_in phrases (Py.lower text) = true <-> Spec.mentions_any text phrases.
Proof.
  unfold Py.any_in, Spec.mentions_any, Spec.mentions.
  rewrite existsb_exists. split; intros [p [Hin Hp]]; exists p; split; auto;
    now apply is_substring_occurs.
Qed.

(** ** Ranked phrase rules *)

Lemma first_rule_decides (rules : list Spec.rule) (default text : string) :
  Spec.decides default text rules (Spec.first_rule rules default (Py.lower text)).
Proof.
  induction rules as [|[verdict phrases] rest IH]; simpl.
  - constructor.
  - destruct (Py.any_in phrases (Py.lower text)) eqn:E.
    + apply Spec.decides_here. now apply any_in_mentions.
    + apply Spec.decides_later; [|exact IH].
      intros H. apply any_in_mentions in H. congruence.
Qed.

Lemma decides_functional (default text : string) (rules : list Spec.rule) (v w : string) :
  Spec.decides default text rules v -> Spec.decides default text rules w -> v = w.
Proof.
  induction 1; intros Hw; inversion Hw; subst; auto; contradiction.
Qed.

Lemma first_rule_in (rules : list Spec.rule) (default t : string) :
  In (Spec.first_rule rules default t) (map fst rules ++ [default]).
Proof.
  induction rules as [|[verdict phrases] rest IH]; simpl; auto.
  destruct (Py.any_in phrases t); auto.
Qed.

Lemma first_phrase_any (phrases : list string) (t verdict otherwise : string) :
  Utils.first_phrase phrases t verdict otherwise =
  if Py.any_in phrases t then verdict else otherwise.
Proof.
  induction phrases as [|p ps IH]; simpl; auto.
  destruct (Py.is_substring p t); simpl; auto.
Qed.

(** ** Accepting-patients classifier *)

Lemma detect_accepting_patients_first_rule (text : string) :
  Utils.detect_accepting_patients text =
  Spec.first_rule Spec.accepting_rules "Unknown" (Py.lower text).
Proof.
  destruct text as [|c text]; [reflexivity|].
  unfold Utils.detect_accepting_patients.
  cbn [Py.is_empty Spec.first_rule Spec.accepting_rules].
  now rewrite !first_phrase_any.
Qed.

Lemma decides_first_hit (default text : string) (before after : list Spec.rule)
  (verdict : string) (phrases : list string) (v : string) :
  Spec.decides default text (before ++ (verdict, phrases) :: after) v ->
  (forall r, In r before -> ~ Spec.mentions_any text (snd r)) ->
  Spec.mentions_any text phrases ->
  v = verdict.
Proof.
  induction before as [|[w ps] before IH]; simpl; intros Hd Hb Hm.
  - inversion Hd; subst; auto. contradiction.
  - inversion Hd; subst.
    + exfalso. eapply Hb; [left; reflexivity|]. assumption.
    + apply IH; auto.
Qed.

Lemma decides_no_hit (default text : string) (rules : list Spec.rule) (v : string) :
  Spec.decides default text rules v ->
  (forall r, In r rules -> ~ Spec.mentions_any text (snd r)) ->
  v = default.
Proof.
  induction 1; intros Hn; auto.
  - exfalso. apply (Hn (verdict, phrases)); simpl; auto.
  - apply IHdecides. intros r Hr. apply Hn. now right.
Qed.

(** C5. The accepting-patients classifier returns one of Yes, No, Waitlist
    and Unknown.  A text that mentions a negative phrase gives No; failing
    that, one that mentions a waitlist phrase gives Waitlist; failing that,
    one that mentions a positive phrase gives Yes; a text that mentions
    none gives Unknown.  A phrase is mentioned when it occurs anywhere in
    the lowercased text, so the position plays no part; in particular a
    text with both "practice is full" and "accepting new clients" gives
    No. *)
Theorem detect_accepting_patients_ranked (text : string) :
  let verdict := Utils.detect_accepting_patients text in
  In verdict ["Yes"; "No"; "Waitlist"; "Unknown"]
  /\ (Spec.mentions_any text Utils.no_indicators -> verdict = "No")
  /\ (~ Spec.mentions_any text Utils.no_indicators ->
      Spec.mentions_any text Utils.waitlist_indicators -> verdict = "Waitlist")
  /\ (~ Spec.mentions_any text Utils.no_indicators ->
      ~ Spec.mentions_any text Utils.waitlist_indicators ->
      Spec.mentions_any text Utils.yes_indicators -> verdict = "Yes")
  /\ (~ Spec.mentions_any text Utils.no_indicators ->
      ~ Spec.mentions_any text Utils.waitlist_indicators ->
      ~ Spec.mentions_any text Utils.yes_indicators -> verdict = "Unknown")
  /\ (Spec.mentions text "practice is full" ->
      Spec.mentions text "accepting new clients" -> verdict = "No").
Proof.
  intros verdict.
  assert (Hd : Spec.decides "Unknown" text Spec.accepting_rules verdict).
  { unfold verdict. rewrite detect_accepting_patients_first_rule.
    apply first_rule_decides. }
  assert (Hno : Spec.mentions_any text Utils.no_indicators -> verdict = "No").
  { intros H. inversion Hd; subst; auto. contradiction. }
  split; [|split; [exact Hno|split; [|split; [|split]]]].
  - unfold verdict. rewrite detect_accepting_patients_first_rule.
    pose proof (first_rule_in Spec.accepting_rules "Unknown" (Py.lower text)) as H.
    simpl in H |- *. intuition.
  - intros H1 H2.
    apply (decides_first_hit "Unknown" text [("No", Utils.no_indicators)]
             [("Yes", Utils.yes_indicators)] "Waitlist" Utils.waitlist_indicators);
      auto.
    intros r [<-|[]]. exact H1.
  - intros H1 H2 H3.
    apply (decides_first_hit "Unknown" text
             [("No", Utils.no_indicators); ("Waitlist", Utils.waitlist_indicators)]
             [] "Yes" Utils.yes_indicators); auto.
    intros r [<-|[<-|[]]]; assumption.
  - intros H1 H2 H3.
    apply (decides_no_hit "Unknown" text Spec.accepting_rules); auto.
    intros r [<-|[<-|[<-|[]]]]; assumption.
  - intros Hfull _. apply Hno.
    exists "practice is full". split; [simpl; tauto | exact Hfull].
Qed.

Lemma detect_accepting_patients_ranked_witness :
  Utils.detect_accepting_patients
    "We are accepting new clients. Sorry - our PRACTICE IS FULL." = "No".
Proof.
  apply (detect_accepting_patients_ranked
           "We are accepting new clients. Sorry - our PRACTICE IS FULL.").
  - exists "we are accepting new clients. sorry - our ", ".". reflexivity.
  - exists "we are ", ". sorry - our practice is full.". reflexivity.
Defined.

(** ** License-type guesser *)

Lemma guess_license_type_first_rule (name category : string) :
  Utils.guess_license_type name category =
  Spec.first_rule Spec.license_rules "" (Py.lower (name ++ " " ++ category)).
Proof.
  unfold Utils.guess_license_type.
  cbn [Spec.first_rule Spec.license_rules Py.any_in existsb].
  now rewrite !orb_false_r, !orb_assoc.
Qed.

(** C10. The license-type guesser returns one of nine values: the eight
    license labels or the empty string.  Its answer is the label of the
    first rule, in the order MD/Psychiatrist, PsyD, PhD, LCSW, LCPC, LPC,
    LCMFT, LMFT, one of whose markers occurs in the lowercased
    concatenation of name and category: a rule wins whenever no rule
    ranked before it has a marker in the text, whatever the rules after it
    would say; with no marker at all the answer is empty. *)
Theorem guess_license_type_priority (name category : string) :
  let guess := Utils.guess_license_type name category in
  let text := name ++ " " ++ category in
  In guess Spec.license_types
  /\ Spec.decides "" text Spec.license_rules guess
  /\ (forall (before after : list Spec.rule) verdict phrases,
        Spec.license_rules = (before ++ (verdict, phrases) :: after)%list ->
        (forall r, In r before -> ~ Spec.mentions_any text (snd r)) ->
        Spec.mentions_any text phrases ->
        guess = verdict)
  /\ ((forall r, In r Spec.license_rules -> ~ Spec.mentions_any text (snd r)) ->
      guess = "").
Proof.
  intros guess text.
  assert (Hd : Spec.decides "" text Spec.license_rules guess).
  { unfold guess. rewrite guess_license_type_first_rule. apply first_rule_decides. }
  split; [|split; [exact Hd|split]].
  - unfold guess. rewrite guess_license_type_first_rule.
    apply (first_rule_in Spec.license_rules "").
  - intros before after verdict phrases Hsplit Hb Hm.
    rewrite Hsplit in Hd. eapply decides_first_hit; eauto.
  - intros Hn. eapply decides_no_hit; eauto.
Qed.

Lemma guess_license_type_priority_witness :
  Utils.guess_license_type "Jane Doe, LCSW" "Psychologist" = "PhD".
Proof.
  apply (guess_license_type_priority "Jane Doe, LCSW" "Psychologist")
    with (before := [("MD/Psychiatrist", ["psychiatr"; ", md"; "m.d."]);
                     ("PsyD", ["psyd"; "psy.d"])])
         (phrases := ["ph.d"; "phd"; "psychologist"])
         (after := [("LCSW", ["lcsw"; "lcsw-c"]); ("LCPC", ["lcpc"]);
                    ("LPC", ["lpc"]); ("LCMFT", ["lcmft"]);
                    ("LMFT", ["lmft"; "marriage and family"])]).
  - reflexivity.
  - intros r [<-|[<-|[]]] H; apply any_in_mentions in H; vm_compute in H;
      discriminate.
  - exists "psychologist". split; [simpl; tauto|].
    exists "jane doe, lcsw ", "". reflexivity.
Defined.

(** ** Name parser *)





(** The credential pattern has no word boundary in front of it: it also
    erases a name part that merely begins with the letters of a
    credential, so that Mary Smith is left with the single token Smith. *)
Lemma credential_pattern_erases_name_parts :
  VerifyLicenses.stripped_name "Mary Smith" = "Smith"
  /\ VerifyLicenses._extract_name_parts "Mary Smith" = ("", "Smith")
  /\ VerifyLicenses._extract_name_parts "Wellness Group LLC" = ("", "Wellness").
Proof. repeat split; vm_compute; reflexivity. Qed.

(** ** Enrichment of a batch *)




(** A page that was retrieved but is empty is not absent: its vector
    carries the Unknown markers of the classifiers and no prices. *)
Lemma empty_text_not_blank (origin : string -> string) (url : string)
  (insurance_lookup spec_lookup approach_lookup : Utils.lookup_table) :
  EnrichData.get
    (EnrichData.enrich_from_text origin "" "" url
       insurance_lookup spec_lookup approach_lookup) "sliding_scale"
  = Some (EnrichData.VStr "Unknown").
Proof. reflexivity. Qed.

(** ** Pattern search for a literal *)

Lemma lit_prefix (p : string) (cu : Re.cursor) :
  Re.is_some (Re.lit false p cu) = String.prefix p (Re.rest cu).
Proof.
  revert cu; induction p as [|c p IH]; intros cu.
  - simpl. now destruct (Re.rest cu).
  - cbn [Re.lit]. destruct (Re.rest cu) as [|x t] eqn:E; [reflexivity|].
    cbn [String.prefix Re.chr_eq].
    destruct (Ascii.eqb_spec c x) as [->|Hne].
    + rewrite IH. simpl. destruct (ascii_dec x x); [reflexivity|contradiction].
    + destruct (ascii_dec c x); [contradiction|reflexivity].
Qed.

Lemma search_from_lit (p s : string) (n : nat) (pv : option ascii) :
  Re.is_some (Re.search_from false (Re.Lit p) n pv s) = Py.is_substring p s.
Proof.
  revert n pv; induction s as [|c s IH]; intros n pv;
    cbn [Re.search_from Py.is_substring]; unfold Re.match_here; cbn [Re.run].
  - pose proof (lit_prefix p {| Re.pos := n; Re.prev := pv; Re.rest := ""; Re.caps := [] |}) as H.
    cbn [Re.rest] in H. rewrite <- H.
    destruct (Re.lit false p _); reflexivity.
  - pose proof (lit_prefix p {| Re.pos := n; Re.prev := pv; Re.rest := String c s; Re.caps := [] |}) as H.
    cbn [Re.rest] in H. rewrite <- H, <- (IH (S n) (Some c)).
    destruct (Re.lit false p _); reflexivity.
Qed.

Lemma search_lit (p s : string) :
  Re.search false (Re.Lit p) s = Py.is_substring p s.
Proof.
  unfold Re.search. rewrite <- (search_from_lit p s 0 None).
  now destruct (Re.search_from false (Re.Lit p) 0 None s).
Qed.

(** ** Masks and boolean indexing *)

Lemma select_map {A : Type} (f : A -> bool) (l : list A) :
  Pandas.select (map f l) l = filter f l.
Proof.
  induction l as [|x l IH]; simpl; [reflexivity|].
  destruct (f x); now rewrite IH.
Qed.

Lemma zip_with_map {A B C D : Type} (g : B -> C -> D) (f1 : A -> B) (f2 : A -> C)
  (l : list A) :
  Pandas.zip_with g (map f1 l) (map f2 l) = map (fun x => g (f1 x) (f2 x)) l.
Proof.
  induction l as [|x l IH]; simpl; [reflexivity|]. now rewrite IH.
Qed.

Lemma metachar_lower (c : ascii) :
  Pandas.metachar c = false -> Pandas.metachar (Py.lower_char c) = false.
Proof.
  destruct c as [[] [] [] [] [] [] [] []]; vm_compute; auto.
Qed.

Lemma plain_lower (k : string) :
  Pandas.plain k = true -> Pandas.plain (Py.lower k) = true.
Proof.
  unfold Pandas.plain. induction k as [|c k IH]; simpl; [auto|].
  rewrite !andb_true_iff, !negb_true_iff. intros [Hc Hk].
  split; [now apply metachar_lower | now apply IH].
Qed.

Lemma str_contains_plain (k : string) (col : list string) :
  Pandas.plain k = true ->
  Pandas.str_contains k col = Some (map (Py.is_substring k) col).
Proof.
  intros Hk. unfold Pandas.str_contains, Pandas.compile. rewrite Hk.
  f_equal. apply map_ext. intros s. apply search_lit.
Qed.


(** ** Non-entity filter *)




(** ** Keep-first duplicate removal *)

Lemma select_In {A : Type} (m : list bool) (l : list A) (x : A) :
  In x (Pandas.select m l) -> In x l.
Proof.
  revert m; induction l as [|y l IH]; intros [|b m]; simpl; try tauto.
  destruct b; simpl; intros H; [destruct H|]; eauto.
Qed.

Section KeepFirst.
Context {A K : Type}.
Variable eqb : K -> K -> bool.
Hypothesis eqb_eq : forall a b, eqb a b = true <-> a = b.
Variable key : A -> K.
Variable masked : A -> bool.

Lemma existsb_eqb_In (k : K) (seen : list K) :
  existsb (eqb k) seen = true <-> In k seen.
Proof.
  rewrite existsb_exists. split.
  - intros [y [Hy He]]. apply eqb_eq in He. now subst.
  - intros H. exists k. split; [exact H|]. now apply eqb_eq.
Qed.

(** Keys stay distinct among the masked rows of any selection. *)
Lemma select_masked_keys_distinct (m : list bool) (l : list A) :
  NoDup (map key (filter masked l)) ->
  NoDup (map key (filter masked (Pandas.select m l))).
Proof.
  revert m; induction l as [|x l IH]; intros [|b m]; simpl; try constructor.
  destruct b; simpl; destruct (masked x); simpl; intros H;
    try (inversion H; subst); auto.
  constructor; auto.
  intros Hin. apply H2. apply in_map_iff in Hin. destruct Hin as [y [Hy Hin]].
  apply in_map_iff. exists y. split; [exact Hy|].
  apply filter_In in Hin. destruct Hin as [Hin Hm].
  apply filter_In. split; [|exact Hm]. eapply select_In; eauto.
Qed.

(** The rows that [duplicated] marks within the masked subset, put back
    on the whole index and removed: the general form of the three
    phases (the first two mask nothing out). *)
Lemma drop_within_cons (seen : list K) (x : A) (l : list A) :
  let run seen l :=
    Pandas.select
      (map negb
         (Pandas.zip_with andb (map masked l)
            (Pandas.align (map masked l)
               (Pandas.duplicated_from eqb seen
                  (map key (Pandas.select (map masked l) l)))))) l in
  run seen (x :: l) =
  if masked x
  then if existsb (eqb (key x)) seen then run (key x :: seen) l
       else x :: run (key x :: seen) l
  else x :: run seen l.
Proof.
  cbv zeta. cbn [map Pandas.select]. destruct (masked x); [|reflexivity].
  cbn [map Pandas.duplicated_from Pandas.align Pandas.zip_with andb Pandas.select].
  destruct (existsb (eqb (key x)) seen); reflexivity.
Qed.

Lemma drop_within_distinct (l : list A) : forall seen,
  let out :=
    Pandas.select
      (map negb
         (Pandas.zip_with andb (map masked l)
            (Pandas.align (map masked l)
               (Pandas.duplicated_from eqb seen
                  (map key (Pandas.select (map masked l) l)))))) l in
  NoDup (map key (filter masked out))
  /\ (forall y, In y out -> masked y = true -> ~ In (key y) seen).
Proof.
  induction l as [|x l IH]; intros seen.
  - simpl. split; [constructor|tauto].
  - cbv zeta. rewrite (drop_within_cons seen x l). cbv zeta.
    destruct (masked x) eqn:Hm.
    + destruct (IH (key x :: seen)) as [Hnd Hseen]. cbv zeta in Hnd, Hseen.
      destruct (existsb (eqb (key x)) seen) eqn:He.
      * split; [exact Hnd|]. intros y Hy Hmy Hin.
        apply (Hseen y Hy Hmy). now right.
      * split.
        -- cbn [filter]. rewrite Hm. cbn [map]. constructor; [|exact Hnd].
           intros Hin. apply in_map_iff in Hin. destruct Hin as [y [Hk Hy]].
           apply filter_In in Hy. destruct Hy as [Hy Hmy].
           apply (Hseen y Hy Hmy). left. now symmetry.
        -- intros y [<-|Hy] Hmy Hin.
           ++ apply existsb_eqb_In in Hin. congruence.
           ++ apply (Hseen y Hy Hmy). now right.
    + destruct (IH seen) as [Hnd Hseen]. cbv zeta in Hnd, Hseen. split.
      * cbn [filter]. rewrite Hm. exact Hnd.
      * intros y [<-|Hy] Hmy; [congruence|]. now apply Hseen.
Qed.

Lemma drop_within_fixed (l : list A) : forall seen,
  NoDup (map key (filter masked l)) ->
  (forall y, In y l -> masked y = true -> ~ In (key y) seen) ->
  Pandas.select
    (map negb
       (Pandas.zip_with andb (map masked l)
          (Pandas.align (map masked l)
             (Pandas.duplicated_from eqb seen
                (map key (Pandas.select (map masked l) l)))))) l = l.
Proof.
  induction l as [|x l IH]; intros seen Hnd Hseen; [reflexivity|].
  pose proof (drop_within_cons seen x l) as Hc. cbv zeta in Hc. rewrite Hc.
  cbn [filter] in Hnd. destruct (masked x) eqn:Hm.
  - cbn [map] in Hnd. inversion Hnd; subst.
    destruct (existsb (eqb (key x)) seen) eqn:He.
    + exfalso. apply (Hseen x); [now left|exact Hm|].
      now apply existsb_eqb_In.
    + f_equal. apply IH; [assumption|].
      intros y Hy Hmy [Heq|Hin].
      * apply H1. rewrite Heq. apply in_map. apply filter_In. now split.
      * apply (Hseen y); [now right|exact Hmy|exact Hin].
  - f_equal. apply IH; [exact Hnd|].
    intros y Hy Hmy. apply Hseen; [now right|exact Hmy].
Qed.
End KeepFirst.

Lemma filter_true {A : Type} (l : list A) : filter (fun _ => true) l = l.
Proof. induction l as [|x l IH]; simpl; [reflexivity|now rewrite IH]. Qed.

Section DropDuplicates.
Context {A K : Type}.
Variable eqb : K -> K -> bool.
Hypothesis eqb_eq : forall a b, eqb a b = true <-> a = b.
Variable key : A -> K.

(** [drop_duplicates] is the general form with nothing masked out. *)
Lemma drop_duplicates_within (l : list A) : forall seen,
  Pandas.select (map negb (Pandas.duplicated_from eqb seen (map key l))) l =
  Pandas.select
    (map negb
       (Pandas.zip_with andb (map (fun _ => true) l)
          (Pandas.align (map (fun _ => true) l)
             (Pandas.duplicated_from eqb seen
                (map key (Pandas.select (map (fun _ => true) l) l)))))) l.
Proof.
  induction l as [|x l IH]; intros seen; [reflexivity|].
  pose proof (drop_within_cons eqb key (fun _ => true) seen x l) as Hc.
  cbv zeta in Hc. rewrite Hc. cbn [map Pandas.duplicated_from Pandas.select].
  rewrite <- IH. destruct (existsb (eqb (key x)) seen); reflexivity.
Qed.

Lemma drop_duplicates_distinct (l : list A) :
  NoDup (map key (Pandas.drop_duplicates eqb key l)).
Proof.
  unfold Pandas.drop_duplicates, Pandas.duplicated.
  rewrite drop_duplicates_within.
  pose proof (drop_within_distinct eqb eqb_eq key (fun _ => true) l []) as [H _].
  cbv zeta in H. now rewrite filter_true in H.
Qed.

Lemma drop_duplicates_fixed (l : list A) :
  NoDup (map key l) -> Pandas.drop_duplicates eqb key l = l.
Proof.
  intros H. unfold Pandas.drop_duplicates, Pandas.duplicated.
  rewrite drop_duplicates_within.
  apply (drop_within_fixed eqb eqb_eq key (fun _ => true)).
  - now rewrite filter_true.
  - intros y _ _ [].
Qed.

Lemma select_keys_distinct (m : list bool) (l : list A) :
  NoDup (map key l) -> NoDup (map key (Pandas.select m l)).
Proof.
  intros H.
  pose proof (select_masked_keys_distinct key (fun _ => true) m l) as Hs.
  rewrite !filter_true in Hs. auto.
Qed.
End DropDuplicates.

Lemma cell_eqb_eq (a b : cell) : Pandas.cell_eqb a b = true <-> a = b.
Proof.
  destruct a as [|x], b as [|y]; simpl; split; try congruence; auto.
  - intros H. apply String.eqb_eq in H. now subst.
  - intros H. inversion H. apply String.eqb_refl.
Qed.

Lemma pair_eqb_eq (a b : cell * cell) : Pandas.pair_eqb a b = true <-> a = b.
Proof.
  destruct a as [a1 a2], b as [b1 b2]. unfold Pandas.pair_eqb. simpl.
  rewrite andb_true_iff, !cell_eqb_eq. split.
  - intros [-> ->]. reflexivity.
  - intros H. inversion H. auto.
Qed.

(** ** Deduplicator *)

(** What the three phases leave behind. *)
Lemma dedupe_place_id_distinct (df : CleanData.DataFrame) (l : list CleanData.row) :
  CleanData.has "place_id" df = true ->
  NoDup (map CleanData.place_id (CleanData.dedupe_place_id df l)).
Proof.
  intros H. unfold CleanData.dedupe_place_id. rewrite H.
  apply drop_duplicates_distinct. exact cell_eqb_eq.
Qed.

Lemma dedupe_name_addr_distinct (df : CleanData.DataFrame) (l : list CleanData.row) :
  NoDup (map (fun r => (CleanData._name_key r, CleanData._addr_key df r))
             (CleanData.dedupe_name_addr df l)).
Proof. apply drop_duplicates_distinct. exact pair_eqb_eq. Qed.

Lemma dedupe_name_phone_distinct (df : CleanData.DataFrame) (l : list CleanData.row) :
  NoDup (map (fun r => (CleanData._name_key r, CleanData._phone_key df r))
             (filter (CleanData.phone_mask df) (CleanData.dedupe_name_phone df l))).
Proof.
  exact (proj1 (drop_within_distinct Pandas.pair_eqb pair_eqb_eq
                  (fun r => (CleanData._name_key r, CleanData._phone_key df r))
                  (CleanData.phone_mask df) l [])).
Qed.

(** C6. Deduplication is idempotent: the three phases, run again on their
    own output, remove nothing. *)
Theorem remove_duplicates_idempotent (df : CleanData.DataFrame) :
  CleanData.remove_duplicates (CleanData.remove_duplicates df)
  = CleanData.remove_duplicates df.
Proof.
  unfold CleanData.remove_duplicates at 1 3. cbn [CleanData.columns CleanData.rows].
  f_equal.
  set (out := CleanData.remove_duplicates df).
  set (l1 := CleanData.dedupe_place_id df (CleanData.rows df)).
  set (l2 := CleanData.dedupe_name_addr df l1).
  set (l3 := CleanData.dedupe_name_phone df l2).
  assert (Hcols : forall col, CleanData.has col out = CleanData.has col df)
    by reflexivity.
  assert (E1 : CleanData.dedupe_place_id out l3 = l3).
  { unfold CleanData.dedupe_place_id. rewrite Hcols.
    destruct (CleanData.has "place_id" df) eqn:Hp; [|reflexivity].
    apply drop_duplicates_fixed; [exact cell_eqb_eq|].
    unfold l3, CleanData.dedupe_name_phone. apply select_keys_distinct.
    unfold l2, CleanData.dedupe_name_addr, Pandas.drop_duplicates.
    apply select_keys_distinct. now apply dedupe_place_id_distinct. }
  assert (E2 : CleanData.dedupe_name_addr out l3 = l3).
  { unfold CleanData.dedupe_name_addr, CleanData._addr_key. rewrite Hcols.
    apply drop_duplicates_fixed; [exact pair_eqb_eq|].
    unfold l3, CleanData.dedupe_name_phone. apply select_keys_distinct.
    apply (dedupe_name_addr_distinct df l1). }
  assert (E3 : CleanData.dedupe_name_phone out l3 = l3).
  { unfold CleanData.dedupe_name_phone, CleanData.phone_mask, CleanData._phone_key.
    rewrite Hcols.
    apply (drop_within_fixed Pandas.pair_eqb pair_eqb_eq
             (fun r => (CleanData._name_key r,
                        if CleanData.has "phone" df
                        then Str (Py.filter_str Py.isdigit (Pandas.fillna "" (CleanData.phone r)))
                        else NaN))).
    - apply (dedupe_name_phone_distinct df l2).
    - intros y _ _ []. }
  change (CleanData.rows out) with l3.
  now rewrite E1, E2, E3.
Qed.

(** C3. Phase 1 treats missing place identifiers as equal to each other:
    of three distinct listings, two of which have no identifier, the second
    unidentified one is removed by phase 1 and is absent from the result
    of the whole deduplication. *)
Theorem dedupe_place_id_drops_unidentified :
  CleanData.dedupe_place_id Spec.unidentified_batch
    (CleanData.rows Spec.unidentified_batch)
  = firstn 2 (CleanData.rows Spec.unidentified_batch)
  /\ CleanData.rows (CleanData.remove_duplicates Spec.unidentified_batch)
     = firstn 2 (CleanData.rows Spec.unidentified_batch).
Proof. split; vm_compute; reflexivity. Qed.

Section FirstKept.
Context {A K : Type}.
Variable eqb : K -> K -> bool.
Variable key : A -> K.

Lemma drop_from_snoc (pre : list A) (r : A) : forall seen,
  Pandas.select
    (map negb (Pandas.duplicated_from eqb seen (map key (pre ++ [r]))))
    (pre ++ [r]) =
  (Pandas.select (map negb (Pandas.duplicated_from eqb seen (map key pre))) pre
   ++ (if existsb (eqb (key r)) (rev (map key pre) ++ seen) then [] else [r]))%list.
Proof.
  induction pre as [|x pre IH]; intros seen.
  - simpl. destruct (existsb (eqb (key r)) seen); reflexivity.
  - cbn [app map Pandas.duplicated_from Pandas.select rev].
    rewrite IH, <- app_assoc. cbn [app].
    destruct (negb (existsb (eqb (key x)) seen)); reflexivity.
Qed.

(** Keep-first: the row at the end of a list goes exactly when a row
    before it carries an equal key; the rows before it fare as they do
    without it. *)
Lemma drop_duplicates_snoc (pre : list A) (r : A) :
  Pandas.drop_duplicates eqb key (pre ++ [r]) =
  (Pandas.drop_duplicates eqb key pre
   ++ (if existsb (eqb (key r)) (map key pre) then [] else [r]))%list.
Proof.
  unfold Pandas.drop_duplicates, Pandas.duplicated.
  rewrite drop_from_snoc, app_nil_r.
  replace (existsb (eqb (key r)) (rev (map key pre)))
    with (existsb (eqb (key r)) (map key pre)); [reflexivity|].
  apply eq_true_iff_eq. rewrite !existsb_exists.
  split; intros [y [Hy He]]; exists y; split; auto;
    [now apply -> in_rev | now apply in_rev].
Qed.
End FirstKept.

(** X3. Phase 1 keeps the first record of every group: a record goes
    exactly when a record before it carries an equal place-identifier
    cell, two missing cells counting as equal. *)
Lemma dedupe_place_id_keeps_first (df : CleanData.DataFrame)
  (pre : list CleanData.row) (r : CleanData.row) :
  CleanData.has "place_id" df = true ->
  CleanData.dedupe_place_id df (pre ++ [r]) =
  (CleanData.dedupe_place_id df pre
   ++ (if existsb (Pandas.cell_eqb (CleanData.place_id r)) (map CleanData.place_id pre)
       then [] else [r]))%list.
Proof.
  intros H. unfold CleanData.dedupe_place_id. rewrite H.
  apply drop_duplicates_snoc.
Qed.

(** ** Order of the cleaning steps *)

Lemma closed_mask_rows {A : Type} (inds : list string) (l : list A)
  (f g : A -> string) (h : A -> bool) :
  Spec.plain_list inds ->
  CleanData.closed_mask inds (map f l) (map g l) (map h l) =
  Some (map (fun r => h r || existsb
                              (fun k => Py.is_substring (Py.lower k) (f r)
                                        || Py.is_substring (Py.lower k) (g r)) inds) l).
Proof.
  intros Hp. revert h. induction Hp as [|k inds Hk _ IH]; intros h; simpl.
  - f_equal. apply map_ext. intros r. now rewrite orb_false_r.
  - rewrite !(str_contains_plain _ _ (plain_lower k Hk)), !map_map, !zip_with_map, IH.
    f_equal. apply map_ext. intros r. now rewrite <- !orb_assoc.
Qed.

Lemma remove_closed_run (kw : CleanData.keywords) (df : CleanData.DataFrame) :
  Spec.plain_list (CleanData.exclude_permanently_closed_indicators kw) ->
  CleanData.remove_closed kw df =
  Some {| CleanData.columns := CleanData.columns df;
          CleanData.rows :=
            filter (fun r => negb (Spec.closed kw df r)) (CleanData.rows df) |}.
Proof.
  intros Hp.
  unfold CleanData.remove_closed, CleanData.name_col, CleanData.col_or_blank,
    CleanData.all_false.
  rewrite (closed_mask_rows _ _ _ _ _ Hp), map_map, select_map.
  do 2 f_equal. apply filter_ext. intros r.
  unfold Spec.closed, Spec.phrase_in, Spec.status_text, Spec.name_text.
  simpl. destruct (CleanData.has "status" df); reflexivity.
Qed.





(** ** Price range *)







(** ** The matcher on runs of a class *)

Lemma append_assoc (a b c : string) : (a ++ b) ++ c = a ++ (b ++ c).
Proof. induction a as [|x a IH]; simpl; [reflexivity|now rewrite IH]. Qed.

Lemma append_nil_r (a : string) : a ++ "" = a.
Proof. induction a as [|x a IH]; simpl; [reflexivity|now rewrite IH]. Qed.

Lemma length_append (a b : string) :
  String.length (a ++ b) = String.length a + String.length b.
Proof. induction a as [|x a IH]; simpl; [reflexivity|now rewrite IH]. Qed.

Lemma moved_nil (cu : Re.cursor) : Re.moved "" (Re.rest cu) cu = cu.
Proof. destruct cu. unfold Re.moved. simpl. now rewrite Nat.add_0_r. Qed.

Lemma moved_cons (x : ascii) (a b : string) (cu : Re.cursor) :
  Re.moved a b (Re.advance x (a ++ b) cu) = Re.moved (String x a) b cu.
Proof. unfold Re.moved, Re.advance. simpl. f_equal. lia. Qed.

Lemma last_of_app (a b : string) (pv : option ascii) :
  Re.last_of (a ++ b) pv = Re.last_of b (Re.last_of a pv).
Proof. revert pv; induction a as [|x a IH]; intros pv; simpl; auto. Qed.


Lemma run_cls_hit (ic : bool) (p : ascii -> bool) (x : ascii) (t : string)
  (cu : Re.cursor) (k : Re.cursor -> option Re.cursor) :
  Re.rest cu = String x t -> p x = true ->
  Re.run ic (Re.Cls p) cu k = k (Re.advance x t cu).
Proof. intros H Hp. simpl. now rewrite H, Hp. Qed.

Lemma run_cls_miss (ic : bool) (p : ascii -> bool) (cu : Re.cursor)
  (k : Re.cursor -> option Re.cursor) :
  Re.starts p (Re.rest cu) = false -> Re.run ic (Re.Cls p) cu k = None.
Proof.
  intros H. simpl. destruct (Re.rest cu); simpl in H; [reflexivity|now rewrite H].
Qed.

(** A greedy loop over a class takes the whole run, provided that the
    continuation, when it fails after the whole run, fails after every
    shorter one as well. *)
Lemma more_cls (ic : bool) (p : ascii -> bool) (a : string) :
  forall b cu k fuel,
  Re.rest cu = a ++ b -> Re.all p a = true ->
  String.length a <= fuel ->
  (String.length a = fuel \/ Re.starts p b = false) ->
  (k (Re.moved a b cu) = None ->
   forall a1 a2, a = a1 ++ a2 -> a2 <> "" -> k (Re.moved a1 (a2 ++ b) cu) = None) ->
  Re.more (Re.run ic (Re.Cls p)) fuel cu k = k (Re.moved a b cu).
Proof.
  induction a as [|x a IH]; intros b cu k fuel Hr Ha Hf Hb Hk.
  - simpl in Hr. rewrite <- Hr, moved_nil.
    destruct fuel; [reflexivity|]. cbn [Re.more].
    destruct Hb as [Hb|Hb]; [discriminate|].
    rewrite run_cls_miss by (now rewrite Hr). reflexivity.
  - destruct fuel as [|fuel]; [simpl in Hf; lia|].
    simpl in Ha. apply andb_true_iff in Ha. destruct Ha as [Hx Ha].
    cbn [Re.more]. rewrite (run_cls_hit ic p x (a ++ b)) by auto.
    replace (Re.pos cu <? Re.pos (Re.advance x (a ++ b) cu))%nat with true
      by (symmetry; apply Nat.ltb_lt; simpl; lia).
    rewrite (IH b (Re.advance x (a ++ b) cu) k fuel); auto.
    + rewrite moved_cons. destruct (k (Re.moved (String x a) b cu)) eqn:E; [reflexivity|].
      simpl. specialize (Hk eq_refl "" (String x a) eq_refl).
      rewrite <- Hr in Hk. rewrite moved_nil in Hk. apply Hk. discriminate.
    + simpl in Hf. lia.
    + destruct Hb as [Hb|Hb]; [left; simpl in Hb; lia|now right].
    + rewrite moved_cons. intros E a1 a2 Ha12 Hne.
      rewrite Ha12, append_assoc, moved_cons. apply Hk; auto.
      simpl. now rewrite Ha12.
Qed.



(** Spans. *)
Lemma span_spec (p : ascii -> bool) (s : string) :
  s = fst (Re.span p s) ++ snd (Re.span p s)
  /\ Re.all p (fst (Re.span p s)) = true
  /\ Re.starts p (snd (Re.span p s)) = false.
Proof.
  induction s as [|x s IH]; simpl; [auto|].
  destruct (p x) eqn:Hx.
  - destruct (Re.span p s) as [a b]. simpl in *. destruct IH as [H1 [H2 H3]].
    rewrite Hx. repeat split; auto. now rewrite <- H1.
  - simpl. rewrite Hx. auto.
Qed.




(** ** The price pattern, run by run *)







Lemma run_seq (ic : bool) (r1 r2 : Re.regex) (cu : Re.cursor)
  (k : Re.cursor -> option Re.cursor) :
  Re.run ic (Re.Seq r1 r2) cu k = Re.run ic r1 cu (fun cu' => Re.run ic r2 cu' k).
Proof. reflexivity. Qed.

Lemma run_star (ic : bool) (r : Re.regex) (cu : Re.cursor)
  (k : Re.cursor -> option Re.cursor) :
  Re.run ic (Re.Star r) cu k =
  Re.more (Re.run ic r) (String.length (Re.rest cu)) cu k.
Proof. reflexivity. Qed.













(** A greedy loop in front of a continuation that succeeds where the loop
    starts does not fail. *)
Lemma more_total (body : Re.cursor -> (Re.cursor -> option Re.cursor) -> option Re.cursor)
  (n : nat) (cu : Re.cursor) (k : Re.cursor -> option Re.cursor) :
  k cu <> None -> Re.more body n cu k <> None.
Proof.
  intros Hk. destruct n; cbn [Re.more]; [exact Hk|].
  destruct (body cu _); [discriminate|exact Hk].
Qed.






(** ** What a match of the price pattern looks like *)

Lemma all_app (p : ascii -> bool) (a b : string) :
  Re.all p (a ++ b) = Re.all p a && Re.all p b.
Proof.
  induction a as [|x a IH]; simpl; [reflexivity|]. now rewrite IH, andb_assoc.
Qed.


















(** ** Every amount is collected *)


Lemma substring_skip (a : string) : forall n s,
  String.substring (String.length a) n (a ++ s) = String.substring 0 n s.
Proof. induction a as [|x a IH]; intros n s; simpl; auto. Qed.

Lemma substring_prefix (d : string) : forall s,
  String.substring 0 (String.length d) (d ++ s) = d.
Proof.
  induction d as [|x d IH]; intros s; simpl.
  - now destruct s.
  - now rewrite IH.
Qed.

Lemma group_of_range (text : string) (e : Re.cursor) (n a b : nat) :
  Re.group_range e n = Some (a, b) ->
  Re.group text e n = String.substring a (b - a) text.
Proof.
  unfold Re.group_range, Re.group.
  destruct (find _ (Re.caps e)) as [[k [a' b']]|]; simpl; [|discriminate].
  intros H. now inversion H.
Qed.




(** ** Sorted sets of names *)

Lemma insert_perm (x : string) (l : list string) :
  Permutation (Coll.insert x l) (x :: l).
Proof.
  induction l as [|y l IH]; simpl; [reflexivity|].
  destruct (String.leb x y); [reflexivity|].
  rewrite IH. apply perm_swap.
Qed.

Lemma sorted_perm (l : list string) : Permutation (Coll.sorted l) l.
Proof.
  induction l as [|x l IH]; simpl; [reflexivity|].
  rewrite insert_perm. now constructor.
Qed.

Lemma insert_ascending (x : string) (l : list string) :
  Sorted Spec.ascending l -> Sorted Spec.ascending (Coll.insert x l).
Proof.
  induction l as [|y l IH]; intros Hs; simpl.
  - repeat constructor.
  - destruct (String.leb x y) eqn:E.
    + constructor; [exact Hs|]. constructor. exact E.
    + inversion Hs as [|? ? Hl Hhd]; subst. constructor; [now apply IH|].
      assert (Hyx : Spec.ascending y x).
      { destruct (String.leb_total x y) as [H|H]; [congruence|exact H]. }
      destruct l as [|z l]; simpl.
      * constructor. exact Hyx.
      * destruct (String.leb x z); constructor; auto.
        now inversion Hhd.
Qed.

Lemma sorted_ascending (l : list string) : Sorted Spec.ascending (Coll.sorted l).
Proof.
  induction l as [|x l IH]; simpl; [constructor|]. now apply insert_ascending.
Qed.

Lemma set_add_spec (x : string) (found : list string) :
  NoDup found ->
  NoDup (Coll.set_add x found)
  /\ (forall c, In c (Coll.set_add x found) <-> c = x \/ In c found).
Proof.
  intros Hnd. unfold Coll.set_add.
  destruct (existsb (String.eqb x) found) eqn:E.
  - split; [exact Hnd|]. intros c. split; [auto|]. intros [->|H]; [|exact H].
    apply existsb_exists in E. destruct E as [y [Hy He]].
    apply String.eqb_eq in He. now subst.
  - split.
    + apply NoDup_app; [exact Hnd|repeat constructor; auto|].
      intros c Hc [Heq|[]]. subst c.
      assert (existsb (String.eqb x) found = true); [|congruence].
      apply existsb_exists. exists x. split; [exact Hc|apply String.eqb_refl].
    + intros c. rewrite in_app_iff. simpl. intuition.
Qed.

(** The loop over the alias table: the names of the aliases that hit. *)
Lemma scan_table (hit : string -> bool) (lookup : Utils.lookup_table) :
  forall found0, NoDup found0 ->
  let found :=
    fold_left
      (fun found entry =>
         let '(alias, canonical) := entry in
         if hit alias then Coll.set_add canonical found else found)
      lookup found0 in
  NoDup found
  /\ (forall c, In c found <->
                In c found0 \/ exists alias, In (alias, c) lookup /\ hit alias = true).
Proof.
  induction lookup as [|[alias canonical] lookup IH]; intros found0 Hnd; simpl.
  - split; [exact Hnd|]. intros c. split; [auto|]. intros [H|[a [[] _]]]. exact H.
  - destruct (hit alias) eqn:E.
    + destruct (set_add_spec canonical found0 Hnd) as [Hnd' Hin'].
      destruct (IH _ Hnd') as [H1 H2]. split; [exact H1|].
      intros c. rewrite H2, Hin'. split.
      * intros [[->|H]|[a [Ha Hh]]]; eauto.
      * intros [H|[a [[Ha|Ha] Hh]]]; eauto.
        inversion Ha; subst. auto.
    + destruct (IH _ Hnd) as [H1 H2]. split; [exact H1|].
      intros c. rewrite H2. split.
      * intros [H|[a [Ha Hh]]]; eauto.
      * intros [H|[a [[Ha|Ha] Hh]]]; eauto.
        inversion Ha; subst. congruence.
Qed.

(** ** Search at word boundaries *)

Lemma lit_app (a : string) : forall b cu,
  Re.rest cu = a ++ b -> Re.lit false a cu = Some (Re.moved a b cu).
Proof.
  induction a as [|x a IH]; intros b cu Hr.
  - simpl in *. now rewrite <- Hr, moved_nil.
  - cbn [Re.lit]. rewrite Hr. cbn [append Re.chr_eq]. rewrite Ascii.eqb_refl.
    rewrite (IH b); [|reflexivity]. now rewrite moved_cons.
Qed.

Lemma lit_inv (a : string) (cu cu' : Re.cursor) :
  Re.lit false a cu = Some cu' ->
  exists b, Re.rest cu = a ++ b /\ cu' = Re.moved a b cu.
Proof.
  intros H. pose proof (lit_prefix a cu) as Hp. rewrite H in Hp. simpl in Hp.
  symmetry in Hp. apply prefix_app in Hp. destruct Hp as [b Hb].
  exists b. split; [exact Hb|]. rewrite (lit_app a b cu Hb) in H. now inversion H.
Qed.

Lemma match_word_bounded (a s : string) (n : nat) (pv : option ascii) :
  Re.is_some (Re.match_here false (Utils.word_bounded a) n pv s) = true <->
  exists post,
    s = a ++ post
    /\ xorb (Re.word_opt pv) (Re.word_opt (Spec.first_char s)) = true
    /\ xorb (Re.word_opt (Re.last_of a pv)) (Re.word_opt (Spec.first_char post)) = true.
Proof.
  unfold Re.match_here, Utils.word_bounded. cbn [Re.cat fold_right Re.run].
  set (cu := {| Re.pos := n; Re.prev := pv; Re.rest := s; Re.caps := [] |}).
  assert (Hb0 : Re.at_boundary cu
                = xorb (Re.word_opt pv) (Re.word_opt (Spec.first_char s)))
    by (unfold Re.at_boundary, Re.next; simpl; now destruct s).
  rewrite Hb0. split.
  - destruct (xorb (Re.word_opt pv) (Re.word_opt (Spec.first_char s))) eqn:E0;
      [|discriminate].
    destruct (Re.lit false a cu) as [cu'|] eqn:El; [|discriminate].
    apply lit_inv in El. destruct El as [post [Hr ->]]. cbn [Re.rest cu] in Hr.
    intros H. exists post. split; [exact Hr|]. split; [reflexivity|].
    unfold Re.at_boundary, Re.next in H. cbn [Re.moved Re.prev Re.rest cu] in H.
    destruct (xorb _ _) eqn:E1 in H; [|discriminate].
    rewrite <- E1. now destruct post.
  - intros [post [Hr [H0 H1]]]. rewrite H0.
    rewrite (lit_app a post cu Hr).
    unfold Re.at_boundary, Re.next. cbn [Re.moved Re.prev Re.rest cu].
    replace (match post with "" => None | String x _ => Some x end)
      with (Spec.first_char post) by now destruct post.
    now rewrite H1.
Qed.

Lemma search_from_word_bounded (a s : string) : forall n pv,
  Re.is_some (Re.search_from false (Utils.word_bounded a) n pv s) = true <->
  exists x post,
    s = x ++ a ++ post
    /\ xorb (Re.word_opt (Re.last_of x pv))
            (Re.word_opt (Spec.first_char (a ++ post))) = true
    /\ xorb (Re.word_opt (Re.last_of (x ++ a) pv))
            (Re.word_opt (Spec.first_char post)) = true.
Proof.
  induction s as [|c s IH]; intros n pv; cbn [Re.search_from];
    destruct (Re.match_here false (Utils.word_bounded a) n pv _) as [e|] eqn:Em.
  - split; [intros _|reflexivity].
    assert (Hm : Re.is_some (Re.match_here false (Utils.word_bounded a) n pv "") = true)
      by now rewrite Em.
    apply match_word_bounded in Hm. destruct Hm as [post [Hs [H0 H1]]].
    exists "", post. cbn [append Re.last_of]. rewrite <- Hs. auto.
  - split; [discriminate|]. intros [x [post [Hs [H0 H1]]]].
    destruct x; [|discriminate]. cbn [append Re.last_of] in *.
    assert (Hm : Re.is_some (Re.match_here false (Utils.word_bounded a) n pv "") = true).
    { apply match_word_bounded. exists post. rewrite <- Hs in H0. auto. }
    rewrite Em in Hm. discriminate.
  - split; [intros _|reflexivity].
    assert (Hm : Re.is_some (Re.match_here false (Utils.word_bounded a) n pv (String c s)) = true)
      by now rewrite Em.
    apply match_word_bounded in Hm. destruct Hm as [post [Hs [H0 H1]]].
    exists "", post. cbn [append Re.last_of]. rewrite <- Hs. auto.
  - rewrite IH. split.
    + intros [x [post [Hs [H0 H1]]]]. exists (String c x), post.
      cbn [append Re.last_of]. rewrite Hs. auto.
    + intros [x [post [Hs [H0 H1]]]]. destruct x as [|y x].
      * exfalso. cbn [append Re.last_of] in *.
        assert (Hm : Re.is_some (Re.match_here false (Utils.word_bounded a) n pv (String c s)) = true).
        { apply match_word_bounded. exists post. rewrite <- Hs in H0. auto. }
        rewrite Em in Hm. discriminate.
      * cbn [append] in Hs. inversion Hs; subst. exists x, post.
        cbn [append Re.last_of] in H0, H1. auto.
Qed.

Lemma search_word_bounded (a t : string) :
  Re.search false (Utils.word_bounded a) t = true <-> Spec.word_occurs a t.
Proof.
  unfold Re.search, Spec.word_occurs, Spec.at_word_boundary.
  rewrite <- (search_from_word_bounded a t 0 None).
  now destruct (Re.search_from false (Utils.word_bounded a) 0 None t).
Qed.

Lemma alias_hit_rule (alias text : string) :
  Utils.alias_hit alias (Py.lower text) = true <-> Spec.alias_rule alias text.
Proof.
  unfold Utils.alias_hit, Spec.alias_rule.
  destruct (String.length alias <=? 3)%nat.
  - apply search_word_bounded.
  - apply is_substring_occurs.
Qed.

(** ** The alias scanners *)

(** X1. The scanner for specializations and approaches follows the rule:
    its result is ascending and duplicate-free, and holds exactly the
    canonical names of the aliases that occur, at a word boundary when the
    alias has at most three characters and anywhere otherwise. *)
Lemma match_specializations_rule (text : string) (lookup : Utils.lookup_table) :
  let names := Utils.match_specializations text lookup in
  Sorted Spec.ascending names
  /\ NoDup names
  /\ (forall c, In c names <->
                exists alias, In (alias, c) lookup /\ Spec.alias_rule alias text).
Proof.
  destruct text as [|ch text].
  - cbn. repeat split; try constructor; [intros []|].
    intros [alias [_ H]]. unfold Spec.alias_rule in H. cbn [Py.lower Py.map_str] in H.
    destruct (String.length alias <=? 3)%nat eqn:E.
    + destruct H as [b [a [Hs [H0 _]]]].
      destruct b; [|discriminate]. destruct alias; [|discriminate].
      destruct a; [|discriminate]. discriminate.
    + destruct H as [b [a Hs]]. destruct b; [|discriminate].
      destruct alias; [discriminate|discriminate].
  - unfold Utils.match_specializations. cbn [Py.is_empty].
    set (t := Py.lower (String ch text)).
    destruct (scan_table (fun alias => Utils.alias_hit alias t) lookup [] (NoDup_nil _))
      as [Hnd Hin].
    cbv zeta in Hnd, Hin. split; [apply sorted_ascending|]. split.
    + eapply Permutation_NoDup; [symmetry; apply sorted_perm|exact Hnd].
    + intros c. rewrite (Permutation_in' (eq_refl c) (sorted_perm _)), Hin.
      split.
      * intros [[]|[alias [Ha Hh]]]. exists alias. split; [exact Ha|].
        now apply alias_hit_rule.
      * intros [alias [Ha Hh]]. right. exists alias. split; [exact Ha|].
        now apply alias_hit_rule.
Qed.

(** X2. The insurance scanner tests every alias as a plain substring,
    short or not: for a text that is not empty its result is ascending
    and duplicate-free, and holds exactly the canonical names of the
    aliases that occur in the lowercased text. *)
Lemma match_insurance_rule (text : string) (lookup : Utils.lookup_table) :
  text <> "" ->
  let names := Utils.match_insurance text lookup in
  Sorted Spec.ascending names
  /\ NoDup names
  /\ (forall c, In c names <->
                exists alias, In (alias, c) lookup
                              /\ Spec.occurs_in alias (Py.lower text)).
Proof.
  intros Hne. destruct text as [|ch text]; [contradiction|].
  unfold Utils.match_insurance. cbn [Py.is_empty].
  set (t := Py.lower (String ch text)).
  destruct (scan_table (fun alias => Py.is_substring alias t) lookup [] (NoDup_nil _))
    as [Hnd Hin].
  cbv zeta in Hnd, Hin. split; [apply sorted_ascending|]. split.
  - eapply Permutation_NoDup; [symmetry; apply sorted_perm|exact Hnd].
  - intros c. rewrite (Permutation_in' (eq_refl c) (sorted_perm _)), Hin.
    split.
    + intros [[]|[alias [Ha Hh]]]. exists alias. split; [exact Ha|].
      now apply is_substring_occurs.
    + intros [alias [Ha Hh]]. right. exists alias. split; [exact Ha|].
      now apply is_substring_occurs.
Qed.

(** Short aliases on the texts of the specification: a three-letter alias
    is found as a word of its own, in any case, and not inside a longer
    word. *)
Lemma short_alias_examples :
  Utils.match_specializations "CBT is great" [("cbt", "CBT")] = ["CBT"]
  /\ Utils.match_specializations "I am bad at art" [("art", "Art Therapy")]
     = ["Art Therapy"]
  /\ Utils.match_specializations "We met at the party" [("art", "Art Therapy")]
     = [].
Proof. repeat split; vm_compute; reflexivity. Qed.

(** C1. The insurance scanner has no word-boundary test.  The alias hap
    has three characters and occurs in the text I am happy only inside the
    word happy, so the rule for short aliases does not hold for it; yet
    the insurance scanner reports its canonical name.  The scanner for
    specializations and approaches, given the same text and table,
    reports nothing. *)
Theorem match_insurance_ignores_word_boundary :
  Utils.match_insurance "I am happy" [("hap", "Health Alliance Plan")]
  = ["Health Alliance Plan"]
  /\ ~ Spec.alias_rule "hap" "I am happy"
  /\ Utils.match_specializations "I am happy" [("hap", "Health Alliance Plan")]
     = [].
Proof.
  split; [vm_compute; reflexivity|]. split; [|vm_compute; reflexivity].
  intros H. apply alias_hit_rule in H. vm_compute in H. discriminate.
Qed.

(* ================================================================== *)
(** * Further properties of the scripts

    Properties of the functions the statements above do not cover: the
    other classifiers and field normalizers of [scripts/utils.py], the
    lookup builders, the closed-business filter, the status and batch loop
    of [scripts/enrich_data.py], the license verifiers, and the slugs and
    multiselect values of [scripts/prepare_import.py] and
    [scripts/outscraper_pull.py]. *)

(** ** Strings: ends, case and stripping *)

Lemma last_of_nonempty (r : string) (pv : option ascii) :
  r <> "" -> Re.last_of r pv = Re.last_of r None.
Proof. destruct r; [congruence|reflexivity]. Qed.

Lemma rstrip_by_last (p : ascii -> bool) (s : string) (x : ascii) :
  Re.last_of (Py.rstrip_by p s) None = Some x -> p x = false.
Proof.
  induction s as [|c t IH]; cbn [Py.rstrip_by]; [discriminate|].
  destruct (Py.rstrip_by p t) as [|d r] eqn:E.
  - destruct (p c) eqn:Ec; cbn; [discriminate|]. now intros [= <-].
  - intros H. apply IH. rewrite <- H. cbn. reflexivity.
Qed.

Lemma ends_with_rstrip (c : ascii) (s : string) :
  More.ends_with c (Py.rstrip_by (fun x => (x =? c)%char) s) = false.
Proof.
  unfold More.ends_with.
  destruct (Re.last_of _ None) as [x|] eqn:E; [|reflexivity].
  now apply rstrip_by_last in E.
Qed.

Lemma ends_with_app (c : ascii) (a u : string) :
  u <> "" -> More.ends_with c (a ++ u) = More.ends_with c u.
Proof.
  intros Hu. unfold More.ends_with. rewrite last_of_app.
  now rewrite last_of_nonempty.
Qed.








Lemma forallb_Forall_snd (q : string -> bool) (d : list (string * string)) :
  forallb (fun e => q (snd e)) d = true -> Forall (fun e => q (snd e) = true) d.
Proof. intros H. apply Forall_forall. now apply forallb_forall. Qed.

Lemma filter_str_all (p : ascii -> bool) (s : string) :
  Re.all p (Py.filter_str p s) = true.
Proof.
  induction s as [|c t IH]; [reflexivity|]. cbn [Py.filter_str].
  destruct (p c) eqn:E; [|exact IH]. cbn [Re.all]. now rewrite E.
Qed.

Lemma all_drop (p : ascii -> bool) (n : nat) (s : string) :
  Re.all p s = true -> Re.all p (Py.drop n s) = true.
Proof.
  revert s. induction n as [|n IH]; intros [|c t]; cbn; auto.
  intros H. apply andb_true_iff in H as [_ H]. now apply IH.
Qed.

Lemma lower_char_idem (c : ascii) : Py.lower_char (Py.lower_char c) = Py.lower_char c.
Proof. destruct c as [[] [] [] [] [] [] [] []]; reflexivity. Qed.

Lemma lower_idem (s : string) : Py.lower (Py.lower s) = Py.lower s.
Proof.
  induction s as [|c t IH]; [reflexivity|]. cbn [Py.lower Py.map_str] in *.
  now rewrite lower_char_idem, IH.
Qed.

Lemma isspace_lower_char (c : ascii) : Py.isspace (Py.lower_char c) = Py.isspace c.
Proof. destruct c as [[] [] [] [] [] [] [] []]; reflexivity. Qed.

Lemma lstrip_by_map (p : ascii -> bool) (f : ascii -> ascii) (s : string) :
  (forall c, p (f c) = p c) ->
  Py.map_str f (Py.lstrip_by p s) = Py.lstrip_by p (Py.map_str f s).
Proof.
  intros Hf. induction s as [|c t IH]; [reflexivity|].
  cbn [Py.lstrip_by Py.map_str]. rewrite Hf. now destruct (p c).
Qed.

Lemma rstrip_by_map (p : ascii -> bool) (f : ascii -> ascii) (s : string) :
  (forall c, p (f c) = p c) ->
  Py.map_str f (Py.rstrip_by p s) = Py.rstrip_by p (Py.map_str f s).
Proof.
  intros Hf. induction s as [|c t IH]; [reflexivity|].
  cbn [Py.rstrip_by Py.map_str]. rewrite <- IH, Hf.
  destruct (Py.rstrip_by p t); cbn [Py.map_str]; [now destruct (p c)|reflexivity].
Qed.

Lemma lower_strip (s : string) : Py.lower (Py.strip s) = Py.strip (Py.lower s).
Proof.
  unfold Py.lower, Py.strip.
  rewrite rstrip_by_map by apply isspace_lower_char.
  now rewrite lstrip_by_map by apply isspace_lower_char.
Qed.

Lemma lstrip_by_starts (p : ascii -> bool) (s : string) :
  Re.starts p (Py.lstrip_by p s) = false.
Proof.
  induction s as [|c t IH]; [reflexivity|]. cbn [Py.lstrip_by].
  destruct (p c) eqn:E; [exact IH|]. cbn. exact E.
Qed.

Lemma lstrip_by_fix (p : ascii -> bool) (s : string) :
  Re.starts p s = false -> Py.lstrip_by p s = s.
Proof. destruct s as [|c t]; [reflexivity|]. cbn. now intros ->. Qed.

Lemma rstrip_by_idem (p : ascii -> bool) (s : string) :
  Py.rstrip_by p (Py.rstrip_by p s) = Py.rstrip_by p s.
Proof.
  induction s as [|c t IH]; [reflexivity|]. cbn [Py.rstrip_by].
  destruct (Py.rstrip_by p t) as [|d r] eqn:E.
  - destruct (p c) eqn:Ec; [reflexivity|]. cbn. now rewrite Ec.
  - cbn [Py.rstrip_by]. cbn [Py.rstrip_by] in IH. now rewrite IH.
Qed.

Lemma rstrip_by_starts (p : ascii -> bool) (s : string) :
  Re.starts p s = false -> Re.starts p (Py.rstrip_by p s) = false.
Proof.
  destruct s as [|c t]; [reflexivity|]. cbn [Re.starts Py.rstrip_by]. intros Hc.
  destruct (Py.rstrip_by p t); [rewrite Hc|]; exact Hc.
Qed.

Lemma strip_by_idem (p : ascii -> bool) (s : string) :
  Py.rstrip_by p (Py.lstrip_by p (Py.rstrip_by p (Py.lstrip_by p s)))
  = Py.rstrip_by p (Py.lstrip_by p s).
Proof.
  rewrite (lstrip_by_fix p (Py.rstrip_by p _)).
  - apply rstrip_by_idem.
  - apply rstrip_by_starts, lstrip_by_starts.
Qed.

Lemma strip_idem (s : string) : Py.strip (Py.strip s) = Py.strip s.
Proof. apply strip_by_idem. Qed.

Lemma all_ext (p q : ascii -> bool) (s : string) :
  (forall c, p c = true -> q c = true) -> Re.all p s = true -> Re.all q s = true.
Proof.
  intros Hpq. induction s as [|c t IH]; [reflexivity|]. cbn [Re.all].
  intros H. apply andb_true_iff in H as [Hc H]. now rewrite (Hpq _ Hc), IH.
Qed.

Lemma all_lstrip_by (q p : ascii -> bool) (s : string) :
  Re.all q s = true -> Re.all q (Py.lstrip_by p s) = true.
Proof.
  induction s as [|c t IH]; [reflexivity|]. cbn [Py.lstrip_by]. intros H.
  destruct (p c); [|exact H]. cbn [Re.all] in H.
  apply andb_true_iff in H as [_ H]. now apply IH.
Qed.

Lemma all_rstrip_by (q p : ascii -> bool) (s : string) :
  Re.all q s = true -> Re.all q (Py.rstrip_by p s) = true.
Proof.
  induction s as [|c t IH]; [reflexivity|]. cbn [Py.rstrip_by Re.all]. intros H.
  apply andb_true_iff in H as [Hc H]. specialize (IH H).
  destruct (Py.rstrip_by p t).
  - destruct (p c); [reflexivity|]. cbn. now rewrite Hc.
  - cbn [Re.all]. now rewrite Hc.
Qed.


(** ** The telehealth and sliding-scale classifiers *)

Lemma detect_telehealth_values (text : string) :
  In (Utils.detect_telehealth text)
     ["Yes - Video"; "Yes - Phone"; "Yes - Both"; "No"; "Unknown"].
Proof.
  unfold Utils.detect_telehealth. destruct (Py.is_empty text); [cbn; tauto|].
  rewrite first_phrase_any.
  destruct (Py.any_in Utils.telehealth_no_indicators (Py.lower text)),
           (Py.any_in Utils.video_indicators (Py.lower text)),
           (Py.any_in Utils.phone_indicators (Py.lower text)); cbn; tauto.
Qed.

(** X4. The telehealth classifier returns one of five verdicts, and each
    verdict has its condition: No exactly when a negative phrase is
    mentioned, whatever else the text says; otherwise Yes - Both, Yes -
    Video or Yes - Phone according to which of the video and the phone
    phrases are mentioned, and Unknown when none is.  Phrases are looked
    for in the lowercased text, as substrings. *)
Theorem detect_telehealth_ranked (text : string) :
  let v := Utils.detect_telehealth text in
  let no := Spec.mentions_any text Utils.telehealth_no_indicators in
  let video := Spec.mentions_any text Utils.video_indicators in
  let phone := Spec.mentions_any text Utils.phone_indicators in
  In v ["Yes - Video"; "Yes - Phone"; "Yes - Both"; "No"; "Unknown"]
  /\ (v = "No" <-> no)
  /\ (v = "Yes - Both" <-> ~ no /\ video /\ phone)
  /\ (v = "Yes - Video" <-> ~ no /\ video /\ ~ phone)
  /\ (v = "Yes - Phone" <-> ~ no /\ ~ video /\ phone)
  /\ (v = "Unknown" <-> ~ no /\ ~ video /\ ~ phone).
Proof.
  cbv zeta. split; [apply detect_telehealth_values|].
  rewrite <- !any_in_mentions.
  unfold Utils.detect_telehealth.
  destruct text as [|c t]; cbn [Py.is_empty].
  - cbn. intuition (try discriminate; try congruence).
  - rewrite first_phrase_any.
    destruct (Py.any_in Utils.telehealth_no_indicators (Py.lower (String c t))),
             (Py.any_in Utils.video_indicators (Py.lower (String c t))),
             (Py.any_in Utils.phone_indicators (Py.lower (String c t))); cbn;
      intuition (try discriminate; try congruence).
Qed.

(** X5. The sliding-scale classifier answers No exactly when a negative
    phrase is mentioned, Yes when none is and a positive phrase is, and
    Unknown otherwise.  The order matters: a text that says no sliding
    scale also mentions the positive phrase sliding scale, and is still
    answered No. *)
Theorem detect_sliding_scale_ranked (text : string) :
  let v := Utils.detect_sliding_scale text in
  let no := Spec.mentions_any text Utils.sliding_no_indicators in
  let yes := Spec.mentions_any text Utils.sliding_yes_indicators in
  (v = "No" <-> no)
  /\ (v = "Yes" <-> ~ no /\ yes)
  /\ (v = "Unknown" <-> ~ no /\ ~ yes)
  /\ (Spec.mentions text "no sliding scale" ->
      Spec.mentions text "sliding scale" /\ v = "No").
Proof.
  cbv zeta.
  assert (Hshadow : Spec.mentions text "no sliding scale" ->
                    Spec.mentions text "sliding scale"
                    /\ Spec.mentions_any text Utils.sliding_no_indicators).
  { intros (b & a & E). split.
    - exists (b ++ "no "), a. rewrite E.
      rewrite append_assoc. reflexivity.
    - exists "no sliding scale". split; [now left | now exists b, a]. }
  rewrite <- !any_in_mentions in *.
  unfold Utils.detect_sliding_scale.
  destruct text as [|c t]; cbn [Py.is_empty].
  - cbn. cbn in Hshadow. intuition (try discriminate; try congruence).
  - rewrite !first_phrase_any.
    destruct (Py.any_in Utils.sliding_no_indicators (Py.lower (String c t))),
             (Py.any_in Utils.sliding_yes_indicators (Py.lower (String c t))); cbn;
      intuition (try discriminate; try congruence).
Qed.

Lemma detect_sliding_scale_ranked_witness :
  Spec.mentions "We offer no sliding scale." "sliding scale"
  /\ Utils.detect_sliding_scale "We offer no sliding scale." = "No".
Proof.
  destruct (detect_sliding_scale_ranked "We offer no sliding scale.")
    as [_ [_ [_ H]]].
  apply H. exists "we offer ", ".". reflexivity.
Defined.

(** ** The languages spoken *)






(** ** The field normalizers *)

(** X7. A normalized URL is empty, or starts with http:// or https:// and
    does not end with a slash. *)
Theorem normalize_url_shape (url : cell) :
  let out := Utils.normalize_url url in
  out = ""
  \/ ((Py.startswith "http://" out = true \/ Py.startswith "https://" out = true)
      /\ More.ends_with "/" out = false).
Proof.
  cbv zeta. destruct url as [|s]; [now left|]. unfold Utils.normalize_url.
  destruct (Py.is_empty s); [now left|].
  set (u := Py.rstrip_slash (Py.strip s)).
  destruct (Py.is_empty u) eqn:Eu; [now left|]. right.
  assert (Hu : u <> "") by (intros H; rewrite H in Eu; discriminate).
  assert (He : More.ends_with "/" u = false) by apply ends_with_rstrip.
  destruct (Py.startswith "http://" u) eqn:E1; cbn [orb negb].
  - split; [now left | exact He].
  - destruct (Py.startswith "https://" u) eqn:E2; cbn [negb].
    + split; [now right | exact He].
    + split.
      * right. unfold Py.startswith. cbn. now destruct u.
      * now rewrite ends_with_app.
Qed.



Lemma phone_format_digits (d : string) :
  String.length d = 10 -> Re.all Py.isdigit d = true ->
  String.length (More.phone_format d) = 14
  /\ Py.filter_str Py.isdigit (More.phone_format d) = d.
Proof.
  intros Hl Ha.
  do 10 (destruct d as [|? d]; [discriminate Hl|]).
  destruct d; [|discriminate Hl]. clear Hl.
  cbn [Re.all] in Ha.
  repeat (apply andb_true_iff in Ha as [?H Ha]).
  split; [reflexivity|].
  unfold More.phone_format. cbn -[Py.isdigit].
  repeat match goal with H : Py.isdigit _ = true |- _ => rewrite H; clear H end.
  reflexivity.
Qed.

(** X9. A standardized phone is empty or is ten digits laid out as
    (NNN) NNN-NNNN, fourteen characters whose digits are the ten kept;
    standardizing it again changes nothing; and it is not empty exactly
    when the cell is a string with ten digits, or with eleven of which
    the first is a 1. *)
Theorem standardize_phone_shape (phone : cell) :
  let out := Utils.standardize_phone phone in
  (out = ""
   \/ exists d, String.length d = 10 /\ Re.all Py.isdigit d = true
                /\ out = More.phone_format d
                /\ String.length out = 14
                /\ Py.filter_str Py.isdigit out = d)
  /\ Utils.standardize_phone (Str out) = out
  /\ (out <> "" <->
      match phone with
      | Str s => String.length (More.phone_digits s) = 10
      | NaN => False
      end).
Proof.
  cbv zeta.
  assert (Hwhen : Utils.standardize_phone phone <> "" <->
                  match phone with
                  | Str s => String.length (More.phone_digits s) = 10
                  | NaN => False
                  end).
  { destruct phone as [|s]; [cbn; tauto|]. unfold Utils.standardize_phone.
    destruct s as [|c s]; [cbn; split; [congruence|discriminate]|].
    cbn [Py.is_empty]. fold (More.phone_digits (String c s)).
    destruct (String.length (More.phone_digits (String c s)) =? 10)%nat eqn:El;
      cbn [negb].
    - apply Nat.eqb_eq in El. split; [auto|discriminate].
    - apply Nat.eqb_neq in El. split; [congruence|contradiction]. }
  assert (Hout : Utils.standardize_phone phone = ""
                 \/ exists d, String.length d = 10 /\ Re.all Py.isdigit d = true
                              /\ Utils.standardize_phone phone = More.phone_format d).
  { destruct phone as [|s]; [now left|]. unfold Utils.standardize_phone.
    destruct (Py.is_empty s); [now left|].
    fold (More.phone_digits s).
    destruct (String.length (More.phone_digits s) =? 10)%nat eqn:El; cbn [negb];
      [|now left].
    right. exists (More.phone_digits s). split; [now apply Nat.eqb_eq|].
    split; [|reflexivity].
    unfold More.phone_digits. destruct (_ && _); [apply all_drop|]; apply filter_str_all. }
  split; [|split; [|exact Hwhen]]; clear Hwhen.
  - destruct Hout as [->|(d & Hl & Hd & ->)]; [now left|].
    destruct (phone_format_digits d Hl Hd) as [H14 Hf].
    right. exists d. auto.
  - destruct Hout as [->|(d & Hl & Hd & ->)]; [reflexivity|].
    destruct (phone_format_digits d Hl Hd) as [H14 Hf].
    unfold Utils.standardize_phone.
    destruct (More.phone_format d) eqn:Ef; [discriminate H14|].
    cbn [Py.is_empty]. rewrite Hf, Hl. cbn [Nat.eqb andb]. rewrite Hl.
    cbn [Nat.eqb negb]. now rewrite <- Ef.
Qed.

(** ** Deduplication and the closed-business filter *)

Lemma subsequence_refl {A : Type} (l : list A) : More.subsequence l l.
Proof. induction l; [apply More.sub_nil | now apply More.sub_keep]. Qed.

Lemma subsequence_trans {A : Type} (l1 l2 l3 : list A) :
  More.subsequence l1 l2 -> More.subsequence l2 l3 -> More.subsequence l1 l3.
Proof.
  intros H12 H23. revert l1 H12.
  induction H23 as [|x l2 l3 _ IH|x l2 l3 _ IH]; intros l1 H12.
  - exact H12.
  - constructor. now apply IH.
  - inversion H12; subst.
    + apply More.sub_skip. now apply IH.
    + apply More.sub_keep. now apply IH.
Qed.

Lemma subsequence_In {A : Type} (l l' : list A) (x : A) :
  More.subsequence l l' -> In x l -> In x l'.
Proof.
  induction 1; cbn; intuition.
Qed.

Lemma subsequence_length {A : Type} (l l' : list A) :
  More.subsequence l l' -> length l <= length l'.
Proof. induction 1; cbn; lia. Qed.

Lemma subsequence_map {A B : Type} (f : A -> B) (l l' : list A) :
  More.subsequence l l' -> More.subsequence (map f l) (map f l').
Proof.
  induction 1; cbn;
    [apply More.sub_nil | now apply More.sub_skip | now apply More.sub_keep].
Qed.

Lemma subsequence_filter {A : Type} (p : A -> bool) (l l' : list A) :
  More.subsequence l l' -> More.subsequence (filter p l) (filter p l').
Proof.
  induction 1; cbn.
  - constructor.
  - destruct (p x); [apply More.sub_skip|]; assumption.
  - destruct (p x); [apply More.sub_keep|]; assumption.
Qed.

Lemma subsequence_NoDup {A : Type} (l l' : list A) :
  More.subsequence l l' -> NoDup l' -> NoDup l.
Proof.
  induction 1; intros Hn.
  - constructor.
  - inversion Hn; subst. auto.
  - inversion Hn; subst. constructor; [|auto].
    intros Hin. eauto using subsequence_In.
Qed.

Lemma select_subsequence {A : Type} (m : list bool) (l : list A) :
  More.subsequence (Pandas.select m l) l.
Proof.
  assert (Hnil : forall l' : list A, More.subsequence [] l').
  { induction l'; constructor; assumption. }
  revert m. induction l as [|x l IH]; intros [|[] m]; cbn;
    try apply Hnil.
  - apply More.sub_keep, IH.
  - apply More.sub_skip, IH.
Qed.

Lemma dedupe_place_id_subsequence (df : CleanData.DataFrame) (l : list CleanData.row) :
  More.subsequence (CleanData.dedupe_place_id df l) l.
Proof.
  unfold CleanData.dedupe_place_id.
  destruct (CleanData.has _ _); [apply select_subsequence | apply subsequence_refl].
Qed.

Lemma dedupe_name_addr_subsequence (df : CleanData.DataFrame) (l : list CleanData.row) :
  More.subsequence (CleanData.dedupe_name_addr df l) l.
Proof. apply select_subsequence. Qed.

Lemma dedupe_name_phone_subsequence (df : CleanData.DataFrame) (l : list CleanData.row) :
  More.subsequence (CleanData.dedupe_name_phone df l) l.
Proof. apply select_subsequence. Qed.

(** X10. What [remove_duplicates] returns: the columns are unchanged; the
    records are records of the input, in their order; no two of them
    carry the same place-identifier cell when the frame has the column;
    no two have the same name key and address key; and among those with
    a phone key of ten digits or more no two have the same name key and
    phone key. *)
Theorem remove_duplicates_distinct (df : CleanData.DataFrame) :
  let out := CleanData.rows (CleanData.remove_duplicates df) in
  CleanData.columns (CleanData.remove_duplicates df) = CleanData.columns df
  /\ More.subsequence out (CleanData.rows df)
  /\ (CleanData.has "place_id" df = true -> NoDup (map CleanData.place_id out))
  /\ NoDup (map (fun r => (CleanData._name_key r, CleanData._addr_key df r)) out)
  /\ NoDup (map (fun r => (CleanData._name_key r, CleanData._phone_key df r))
                (filter (CleanData.phone_mask df) out)).
Proof.
  cbv zeta. unfold CleanData.remove_duplicates. cbn [CleanData.rows CleanData.columns].
  set (l1 := CleanData.dedupe_place_id df (CleanData.rows df)).
  set (l2 := CleanData.dedupe_name_addr df l1).
  pose proof (dedupe_place_id_subsequence df (CleanData.rows df)) as S1.
  pose proof (dedupe_name_addr_subsequence df l1) as S2.
  pose proof (dedupe_name_phone_subsequence df l2) as S3.
  fold l1 in S1. fold l2 in S2.
  split; [reflexivity|]. split; [|split; [|split]].
  - eauto using subsequence_trans.
  - intros Hp.
    apply (subsequence_NoDup _ (map CleanData.place_id l1)).
    + apply subsequence_map. eauto using subsequence_trans.
    + now apply dedupe_place_id_distinct.
  - apply (subsequence_NoDup _ (map (fun r => (CleanData._name_key r, CleanData._addr_key df r)) l2)).
    + now apply subsequence_map.
    + apply dedupe_name_addr_distinct.
  - apply dedupe_name_phone_distinct.
Qed.

(** X11. The closed-business filter, for indicators that spell plain
    phrases: it keeps the columns, returns records of the input in their
    order, and keeps a record exactly when no indicator occurs, in any
    case, in its status or in its name (a missing value reading as the
    empty text). *)
Theorem remove_closed_rule (kw : CleanData.keywords) (df : CleanData.DataFrame) :
  Spec.plain_list (CleanData.exclude_permanently_closed_indicators kw) ->
  exists out,
    CleanData.remove_closed kw df = Some out
    /\ CleanData.columns out = CleanData.columns df
    /\ More.subsequence (CleanData.rows out) (CleanData.rows df)
    /\ (forall r, In r (CleanData.rows out) <->
                  In r (CleanData.rows df) /\ Spec.closed kw df r = false).
Proof.
  intros Hp. pose proof (remove_closed_run kw df Hp) as Hrun.
  eexists. split; [exact Hrun|]. cbn [CleanData.columns CleanData.rows].
  split; [reflexivity|split].
  - rewrite <- select_map. apply select_subsequence.
  - intros r. rewrite filter_In. now rewrite negb_true_iff.
Qed.

Lemma remove_closed_rule_witness :
  exists out,
    CleanData.remove_closed Spec.sample_keywords
      (CleanData.mkFrame ["therapist_name"; "status"]
         [ CleanData.mkRow (Str "Ann Lee, LPC") NaN NaN NaN NaN
             (Str "OPERATIONAL") NaN NaN NaN;
           CleanData.mkRow (Str "Oak Counseling (Permanently Closed)") NaN NaN NaN NaN
             NaN NaN NaN NaN;
           CleanData.mkRow (Str "Roe Therapy") NaN NaN NaN NaN
             (Str "Permanently closed") NaN NaN NaN ]) = Some out
    /\ CleanData.rows out
       = [ CleanData.mkRow (Str "Ann Lee, LPC") NaN NaN NaN NaN
             (Str "OPERATIONAL") NaN NaN NaN ].
Proof.
  destruct (remove_closed_rule Spec.sample_keywords
      (CleanData.mkFrame ["therapist_name"; "status"]
         [ CleanData.mkRow (Str "Ann Lee, LPC") NaN NaN NaN NaN
             (Str "OPERATIONAL") NaN NaN NaN;
           CleanData.mkRow (Str "Oak Counseling (Permanently Closed)") NaN NaN NaN NaN
             NaN NaN NaN NaN;
           CleanData.mkRow (Str "Roe Therapy") NaN NaN NaN NaN
             (Str "Permanently closed") NaN NaN NaN ]))
    as [out [Hrun _]].
  - repeat constructor.
  - exists out. split; [exact Hrun|].
    vm_compute in Hrun. injection Hrun as <-. reflexivity.
Defined.

Lemma match_insurance_rule_witness :
  In "Aetna" (Utils.match_insurance "We accept AETNA plans" [("aetna", "Aetna")]).
Proof.
  destruct (match_insurance_rule "We accept AETNA plans" [("aetna", "Aetna")])
    as [_ [_ H]]; [discriminate|].
  apply H. exists "aetna". split; [now left|].
  exists "we accept ", " plans". reflexivity.
Defined.

Lemma dedupe_place_id_keeps_first_witness :
  CleanData.dedupe_place_id Spec.unidentified_batch
    (CleanData.rows Spec.unidentified_batch)
  = firstn 2 (CleanData.rows Spec.unidentified_batch).
Proof.
  change (CleanData.rows Spec.unidentified_batch)
    with (firstn 2 (CleanData.rows Spec.unidentified_batch)
          ++ skipn 2 (CleanData.rows Spec.unidentified_batch))%list at 1.
  cbn [firstn skipn CleanData.rows Spec.unidentified_batch].
  rewrite (dedupe_place_id_keeps_first Spec.unidentified_batch); [|reflexivity].
  vm_compute. reflexivity.
Defined.

(** ** The alias lookups *)

Lemma dict_set_spec (d : Utils.lookup_table) (k v : string) :
  NoDup (map fst d) ->
  NoDup (map fst (Utils.dict_set d k v))
  /\ (forall k' c, In (k', c) (Utils.dict_set d k v) <->
                   (k' = k /\ c = v) \/ (k' <> k /\ In (k', c) d)).
Proof.
  induction d as [|[k0 v0] d IH]; intros Hnd.
  - cbn. split; [repeat constructor; auto|].
    intros k' c. split.
    + intros [[= <- <-]|[]]. now left.
    + intros [[-> ->]|[_ []]]. now left.
  - cbn [map fst] in Hnd. inversion Hnd as [|? ? Hnot Hnd']; subst.
    cbn [Utils.dict_set]. destruct (String.eqb_spec k0 k) as [->|Hne].
    + split; [exact Hnd|]. intros k' c. cbn [In]. split.
      * intros [[= <- <-]|Hin]; [now left|]. right. split; [|now right].
        intros ->. apply Hnot. now apply (in_map fst) in Hin.
      * intros [[-> ->]|[Hk [[= <- <-]|Hin]]]; [now left|congruence|now right].
    + destruct (IH Hnd') as [IH1 IH2]. split.
      * cbn [map fst]. constructor; [|exact IH1].
        intros Hin. apply in_map_iff in Hin as [[k1 c1] [Hk Hin]].
        cbn in Hk. subst k1. apply IH2 in Hin as [[-> _]|[_ Hin]]; [congruence|].
        apply Hnot. now apply (in_map fst) in Hin.
      * intros k' c. cbn [In]. rewrite IH2. split.
        -- intros [[= <- <-]|[H|[Hk Hin]]]; [right; split; [congruence|now left]|now left|].
           right. split; [exact Hk|now right].
        -- intros [H|[Hk [H|Hin]]]; [right; now left|now left|]. right. right. now split.
Qed.

Lemma load_lookup_assignments (entries : list Utils.entry) :
  forall d,
  fold_left
    (fun lookup e =>
       fold_left
         (fun lookup alias =>
            Utils.dict_set lookup (Py.strip (Py.lower alias)) (Utils.canonical_name e))
         (Utils.aliases e) lookup)
    entries d
  = More.assign_all (More.assignments entries) d.
Proof.
  induction entries as [|e entries IH]; intros d; [reflexivity|].
  cbn [fold_left More.assignments flat_map]. rewrite IH.
  unfold More.assign_all. rewrite fold_left_app. f_equal.
  generalize (Utils.aliases e) d. clear.
  induction l as [|a l IH]; intros d; [reflexivity|]. cbn [map fold_left fst snd].
  apply IH.
Qed.

Lemma assign_all_spec (l : list (string * string)) :
  forall d, NoDup (map fst d) ->
  NoDup (map fst (More.assign_all l d))
  /\ (forall k c, In (k, c) (More.assign_all l d) <->
                  More.last_value k l = Some c
                  \/ (More.last_value k l = None /\ In (k, c) d)).
Proof.
  induction l as [|[k0 v0] l IH]; intros d Hnd.
  - cbn. split; [exact Hnd|]. intros k c. split; [now right|].
    intros [H|[_ H]]; [discriminate|exact H].
  - cbn [More.assign_all fold_left fst snd].
    destruct (dict_set_spec d k0 v0 Hnd) as [Hnd' Hin'].
    destruct (IH _ Hnd') as [IH1 IH2]. fold (More.assign_all l (Utils.dict_set d k0 v0)).
    split; [exact IH1|]. intros k c. rewrite IH2, Hin'.
    cbn [More.last_value]. destruct (More.last_value k l) as [v'|].
    + split; intros [H|[H _]]; try discriminate; now left.
    + destruct (String.eqb_spec k0 k) as [->|Hne].
      * split.
        -- intros [H|[_ [[_ ->]|[Hk _]]]]; [discriminate|now left|congruence].
        -- intros [[= ->]|[H _]]; [|discriminate]. right. split; [reflexivity|now left].
      * split.
        -- intros [H|[_ [[-> _]|[_ Hin]]]]; [discriminate|congruence|]. right. now split.
        -- intros [H|[_ Hin]]; [discriminate|]. right. split; [reflexivity|].
           right. split; [congruence|exact Hin].
Qed.

Lemma last_value_key (k c : string) (entries : list Utils.entry) :
  More.last_value k (More.assignments entries) = Some c ->
  exists e alias, In e entries /\ In alias (Utils.aliases e)
                  /\ k = Py.strip (Py.lower alias) /\ c = Utils.canonical_name e.
Proof.
  assert (H : forall l, More.last_value k l = Some c -> In (k, c) l).
  { induction l as [|[k0 v0] l IH]; cbn; [discriminate|].
    destruct (More.last_value k l).
    - intros [= ->]. right. now apply IH.
    - destruct (String.eqb_spec k0 k) as [->|]; [|discriminate].
      intros [= ->]. now left. }
  intros Hl. apply H in Hl. unfold More.assignments in Hl.
  apply in_flat_map in Hl as [e [He Hin]].
  apply in_map_iff in Hin as [alias [[= <- <-] Ha]]. now exists e, alias.
Qed.

(** X12. The lookup a builder returns from a list of entries: every key
    stands once; a key is bound to the canonical name of the last entry
    that lists an alias with that key (the last assignment wins); and
    every key is an alias of some entry lowercased and stripped, itself
    unchanged by lowercasing and by stripping. *)
Theorem load_lookup_last_wins (entries : list Utils.entry) :
  let lookup := Utils.load_lookup entries in
  NoDup (map fst lookup)
  /\ (forall key c, In (key, c) lookup <->
                    More.last_value key (More.assignments entries) = Some c)
  /\ (forall key c, In (key, c) lookup ->
                    Py.lower key = key /\ Py.strip key = key
                    /\ exists e alias, In e entries /\ In alias (Utils.aliases e)
                                       /\ key = Py.strip (Py.lower alias)
                                       /\ c = Utils.canonical_name e).
Proof.
  cbv zeta. unfold Utils.load_lookup. rewrite load_lookup_assignments.
  destruct (assign_all_spec (More.assignments entries) [] (NoDup_nil _)) as [H1 H2].
  assert (H3 : forall key c, In (key, c) (More.assign_all (More.assignments entries) []) <->
                             More.last_value key (More.assignments entries) = Some c).
  { intros key c. rewrite H2. split; [|now left]. now intros [H|[_ []]]. }
  split; [exact H1|]. split; [exact H3|].
  intros key c Hin. apply H3 in Hin.
  destruct (last_value_key _ _ _ Hin) as (e & alias & He & Ha & -> & ->).
  split; [|split].
  - now rewrite lower_strip, lower_idem.
  - apply strip_idem.
  - now exists e, alias.
Qed.

Lemma load_lookup_last_wins_witness :
  Py.lower "aetna" = "aetna" /\ Py.strip "aetna" = "aetna".
Proof.
  destruct (load_lookup_last_wins
              [ Utils.mkEntry "Aetna" ["AETNA"];
                Utils.mkEntry "Aetna Better Health" [" Aetna "] ])
    as [_ [_ H]].
  destruct (H "aetna" "Aetna Better Health") as [H1 [H2 _]]; [now left|].
  split; assumption.
Defined.

Lemma remove_duplicates_distinct_witness :
  NoDup (map CleanData.place_id
           (CleanData.rows (CleanData.remove_duplicates Spec.unidentified_batch))).
Proof.
  destruct (remove_duplicates_distinct Spec.unidentified_batch) as [_ [_ [H _]]].
  apply H. reflexivity.
Defined.

(** ** The enrichment status and the batch loop *)

(** X13. The status [main] gives a record after [process_row]: cleaned
    when the record has no website or the crawl gave no page; for a page
    that was retrieved, enriched_full when the insurance field is not
    empty and enriched_basic otherwise, even when the page is empty and
    nothing was extracted from it, the telehealth field being then the
    non-empty marker Unknown. *)
Theorem enrichment_status_of_row (origin : string -> string)
  (arun : cell -> EnrichData.crawl_outcome) (df : CleanData.DataFrame)
  (insurance_lookup spec_lookup approach_lookup : Utils.lookup_table)
  (r : CleanData.row) :
  let url := EnrichData.website_of df r in
  let status :=
    EnrichData.enrichment_status
      (EnrichData.process_row origin arun df
         insurance_lookup spec_lookup approach_lookup r) in
  (EnrichData.falsy url = true \/ EnrichData.crawl_website arun url = None ->
   status = "cleaned")
  /\ (forall text,
        EnrichData.falsy url = false ->
        EnrichData.crawl_website arun url = Some text ->
        status = if Py.is_empty (Py.join ", " (Utils.match_insurance text insurance_lookup))
                 then "enriched_basic" else "enriched_full").
Proof.
  cbv zeta. unfold EnrichData.process_row. split.
  - intros [H|H]; rewrite H; [reflexivity|].
    now destruct (EnrichData.falsy _).
  - intros text Hf Hc. rewrite Hf, Hc.
    unfold EnrichData.enrich_from_text, EnrichData.enrichment_status.
    pose proof (detect_telehealth_values text) as Ht.
    generalize dependent (Utils.detect_telehealth text). intros tele Ht.
    generalize (Utils.match_specializations text spec_lookup)
               (Utils.match_specializations text approach_lookup)
               (Utils.detect_sliding_scale text) (Utils.extract_price_range text)
               (Utils.detect_telehealth_platform text)
               (Utils.detect_accepting_patients text)
               (EnrichData.extract_education text) (EnrichData.extract_languages text)
               (EnrichData.extract_profile_image origin text
                  (EnrichData.url_text (EnrichData.website_of df r))).
    intros specs apps sl pr plat acc edu langs img.
    set (ins := Utils.match_insurance text insurance_lookup).
    assert (Hj : EnrichData.joined ins = EnrichData.VStr (Py.join ", " ins))
      by now destruct ins.
    rewrite Hj.
    assert (Htele : Py.is_empty tele = false).
    { cbn in Ht. intuition (subst; reflexivity). }
    cbn [EnrichData.get String.eqb Ascii.eqb Bool.eqb EnrichData.truthy existsb].
    rewrite Htele. cbn [negb orb]. rewrite orb_true_r.
    now destruct (Py.is_empty (Py.join ", " ins)).
Qed.

Lemma enrichment_status_of_row_witness :
  EnrichData.enrichment_status
    (EnrichData.process_row (fun _ => "") (fun _ => EnrichData.Returns true "" "")
       (CleanData.mkFrame ["therapist_name"; "website"] []) [("aetna", "Aetna")] [] []
       (CleanData.mkRow (Str "Ann Lee") NaN NaN NaN NaN NaN NaN
          (Str "https://annlee.example") NaN))
  = "enriched_basic".
Proof.
  destruct (enrichment_status_of_row (fun _ => "")
              (fun _ => EnrichData.Returns true "" "")
              (CleanData.mkFrame ["therapist_name"; "website"] [])
              [("aetna", "Aetna")] [] []
              (CleanData.mkRow (Str "Ann Lee") NaN NaN NaN NaN NaN NaN
                 (Str "https://annlee.example") NaN)) as [_ H].
  apply (H ""); reflexivity.
Defined.

Section Batches.
Variable origin : string -> string.
Variable arun : cell -> EnrichData.crawl_outcome.
Variable df : CleanData.DataFrame.
Variables insurance_lookup spec_lookup approach_lookup : Utils.lookup_table.




End Batches.




(** ** The license verifiers *)

(** X15. A verifier never marks a license as verified: whatever the board
    answers, the result has verified false, an empty license number and
    status, the license type it was given and the source tag of the
    board, and at most one request is sent.  When no last name can be
    parsed from the name, no request is sent at all and the note says
    so. *)
Theorem verify_never_verifies (session_get : VerifyLicenses.request -> VerifyLicenses.response)
  (get_text : string -> string) (v : VerifyLicenses.verifier)
  (name license_type : string) :
  let result := fst (VerifyLicenses.verify session_get get_text v name license_type) in
  let requests := snd (VerifyLicenses.verify session_get get_text v name license_type) in
  VerifyLicenses.verified result = false
  /\ VerifyLicenses.license_number result = ""
  /\ VerifyLicenses.license_status result = ""
  /\ VerifyLicenses.license_type result = license_type
  /\ VerifyLicenses.verification_source result = VerifyLicenses.source v
  /\ length requests <= 1
  /\ (snd (VerifyLicenses._extract_name_parts name) = "" ->
      requests = []
      /\ VerifyLicenses.verification_notes result = "Could not parse name").
Proof.
  cbv zeta. unfold VerifyLicenses.verify.
  destruct (VerifyLicenses._extract_name_parts name) as [first_name last_name].
  cbn [snd]. destruct last_name as [|c last_name]; cbn [Py.is_empty].
  - cbn. repeat split; lia.
  - assert (Hne : String c last_name = "" -> False) by discriminate.
    destruct (session_get _) as [e|status_code html];
      [|destruct (status_code =? 200)%nat; [destruct (Py.is_substring _ _)|]];
      cbn [fst snd VerifyLicenses.verified VerifyLicenses.license_number
           VerifyLicenses.license_status VerifyLicenses.license_type
           VerifyLicenses.verification_source length];
      (split; [reflexivity|]); (split; [reflexivity|]); (split; [reflexivity|]);
      (split; [reflexivity|]); (split; [reflexivity|]); (split; [lia|]);
      intros H; destruct (Hne H).
Qed.

Lemma verify_never_verifies_witness :
  snd (VerifyLicenses.verify (fun _ => VerifyLicenses.Response 200 "LLC")
         (fun html => html) VerifyLicenses.DCVerifier "LLC" "LPC") = []
  /\ VerifyLicenses.verification_notes
       (fst (VerifyLicenses.verify (fun _ => VerifyLicenses.Response 200 "LLC")
               (fun html => html) VerifyLicenses.DCVerifier "LLC" "LPC"))
     = "Could not parse name".
Proof.
  apply (verify_never_verifies (fun _ => VerifyLicenses.Response 200 "LLC")
           (fun html => html) VerifyLicenses.DCVerifier "LLC" "LPC").
  reflexivity.
Defined.

(** ** Retries of the data pull *)

Section Retry.
Variable search : nat -> OutscraperPull.reply.
Variable max_retries : nat.

Lemma attempts_success (n : nat) (r : OutscraperPull.results) :
  n <= max_retries -> search n = OutscraperPull.Replies r ->
  forall k attempt fx,
  attempt + k = n ->
  (forall i, attempt <= i < n -> (exists e, search i = OutscraperPull.Fails e)) ->
  OutscraperPull.attempts search (S max_retries - attempt) attempt max_retries fx
  = (OutscraperPull.Returned (OutscraperPull.records_of r),
     OutscraperPull.mkEffects (OutscraperPull.calls fx + k + 1)
       (OutscraperPull.sleeps fx ++ map (fun i => 10 * i) (seq attempt k))).
Proof.
  intros Hn Hr. induction k as [|k IH]; intros attempt fx Hk Hf.
  - assert (attempt = n) by lia. subst attempt.
    replace (S max_retries - n) with (S (max_retries - n)) by lia.
    cbn [OutscraperPull.attempts]. rewrite Hr.
    cbn [OutscraperPull.calls OutscraperPull.sleeps seq map].
    rewrite app_nil_r. do 2 f_equal. lia.
  - replace (S max_retries - attempt) with (S (S max_retries - S attempt)) by lia.
    cbn [OutscraperPull.attempts].
    destruct (Hf attempt) as [e He]; [lia|]. rewrite He.
    assert (Hlt : (attempt <? max_retries)%nat = true) by (apply Nat.ltb_lt; lia).
    rewrite Hlt. rewrite IH; [|lia|intros i Hi; apply Hf; lia].
    cbn [OutscraperPull.calls OutscraperPull.sleeps seq map].
    rewrite <- app_assoc. cbn [app]. do 2 f_equal. lia.
Qed.

Lemma attempts_step (remaining attempt : nat) (fx : OutscraperPull.effects) :
  OutscraperPull.attempts search (S remaining) attempt max_retries fx
  = match search attempt with
    | OutscraperPull.Replies r =>
        (OutscraperPull.Returned (OutscraperPull.records_of r),
         OutscraperPull.mkEffects (S (OutscraperPull.calls fx)) (OutscraperPull.sleeps fx))
    | OutscraperPull.Fails _ =>
        if (attempt <? max_retries)%nat
        then OutscraperPull.attempts search remaining (S attempt) max_retries
               (OutscraperPull.mkEffects (S (OutscraperPull.calls fx))
                  (OutscraperPull.sleeps fx ++ [10 * attempt]))
        else (OutscraperPull.Returned [],
              OutscraperPull.mkEffects (S (OutscraperPull.calls fx)) (OutscraperPull.sleeps fx))
    end.
Proof. reflexivity. Qed.

Lemma attempts_exhausted :
  forall k attempt fx,
  attempt + k = max_retries ->
  (forall i, attempt <= i <= max_retries -> (exists e, search i = OutscraperPull.Fails e)) ->
  OutscraperPull.attempts search (S k) attempt max_retries fx
  = (OutscraperPull.Returned [],
     OutscraperPull.mkEffects (OutscraperPull.calls fx + k + 1)
       (OutscraperPull.sleeps fx ++ map (fun i => 10 * i) (seq attempt k))).
Proof.
  induction k as [|k IH]; intros attempt fx Hk Hf.
  - rewrite attempts_step.
    destruct (Hf attempt) as [e He]; [lia|]. rewrite He.
    assert (Hlt : (attempt <? max_retries)%nat = false) by (apply Nat.ltb_ge; lia).
    rewrite Hlt. cbn [OutscraperPull.calls OutscraperPull.sleeps seq map].
    rewrite app_nil_r. do 2 f_equal. lia.
  - rewrite attempts_step.
    destruct (Hf attempt) as [e He]; [lia|]. rewrite He.
    assert (Hlt : (attempt <? max_retries)%nat = true) by (apply Nat.ltb_lt; lia).
    rewrite Hlt. rewrite IH; [|lia|intros i Hi; apply Hf; lia].
    cbn [OutscraperPull.calls OutscraperPull.sleeps seq map].
    rewrite <- app_assoc. cbn [app]. do 2 f_equal. lia.
Qed.

End Retry.

(** X16. The retry loop of [pull_google_maps].  With no attempt allowed
    the function makes no call and fails on the unbound [results].
    Otherwise the first attempt that succeeds decides: its records are
    returned after exactly that many calls, the waits before it being
    10, 20, ... seconds; and when every allowed attempt fails the result
    is the empty list, after as many calls as were allowed and no wait
    after the last. *)
Theorem pull_google_maps_retries (search : nat -> OutscraperPull.reply)
  (max_retries : nat) :
  let failed i := exists e, search i = OutscraperPull.Fails e in
  (max_retries = 0 ->
   OutscraperPull.pull_google_maps search max_retries
   = (OutscraperPull.UnboundLocalError, OutscraperPull.mkEffects 0 []))
  /\ (forall n r,
        1 <= n <= max_retries ->
        (forall i, 1 <= i < n -> failed i) ->
        search n = OutscraperPull.Replies r ->
        OutscraperPull.pull_google_maps search max_retries
        = (OutscraperPull.Returned (OutscraperPull.records_of r),
           OutscraperPull.mkEffects n (map (fun i => 10 * i) (seq 1 (n - 1)))))
  /\ (1 <= max_retries ->
      (forall i, 1 <= i <= max_retries -> failed i) ->
      OutscraperPull.pull_google_maps search max_retries
      = (OutscraperPull.Returned [],
         OutscraperPull.mkEffects max_retries
           (map (fun i => 10 * i) (seq 1 (max_retries - 1))))).
Proof.
  cbv zeta. unfold OutscraperPull.pull_google_maps. split; [|split].
  - intros ->. reflexivity.
  - intros n r Hn Hf Hr.
    replace max_retries with (S max_retries - 1) at 1 by lia.
    rewrite (attempts_success search max_retries n r) with (k := n - 1);
      [|lia|exact Hr|lia|exact Hf].
    cbn [OutscraperPull.calls OutscraperPull.sleeps app]. do 2 f_equal. lia.
  - intros Hm Hf.
    replace max_retries with (S (max_retries - 1)) at 1 by lia.
    rewrite attempts_exhausted; [|lia|exact Hf].
    cbn [OutscraperPull.calls OutscraperPull.sleeps app]. do 2 f_equal. lia.
Qed.

Lemma pull_google_maps_retries_witness :
  OutscraperPull.pull_google_maps
    (fun n => if (n <? 3)%nat then OutscraperPull.Fails "timeout"
              else OutscraperPull.Replies
                     (OutscraperPull.ListOf [OutscraperPull.Records ["ChIJ-ann"; "ChIJ-bob"]]))
    3
  = (OutscraperPull.Returned [OutscraperPull.Record_ "ChIJ-ann"; OutscraperPull.Record_ "ChIJ-bob"],
     OutscraperPull.mkEffects 3 [10; 20]).
Proof.
  destruct (pull_google_maps_retries
    (fun n => if (n <? 3)%nat then OutscraperPull.Fails "timeout"
              else OutscraperPull.Replies
                     (OutscraperPull.ListOf [OutscraperPull.Records ["ChIJ-ann"; "ChIJ-bob"]]))
    3) as [_ [H _]].
  apply (H 3 (OutscraperPull.ListOf [OutscraperPull.Records ["ChIJ-ann"; "ChIJ-bob"]])).
  - lia.
  - intros i Hi. exists "timeout".
    destruct i as [|[|[|i]]]; [lia|reflexivity|reflexivity|lia].
  - reflexivity.
Defined.

(** ** Slugs *)

(** ** Substitution of runs of a class *)

Lemma match_here_cls (q : ascii -> bool) (p0 : nat) (pv : option ascii) (s : string) :
  Re.match_here false (Re.Cls q) p0 pv s =
  match s with
  | String x t => if q x then Some (Re.advance x t (Re.mkCursor p0 pv s [])) else None
  | EmptyString => None
  end.
Proof. reflexivity. Qed.

Lemma sub_from_cls_erase (q : ascii -> bool) (text : string) :
  forall fuel s p0 pv,
  String.length s < fuel ->
  Re.sub_from false (Re.Cls q) (fun _ => "") text fuel p0 pv s
  = Py.filter_str (fun c => negb (q c)) s.
Proof.
  induction fuel as [|fuel IH]; intros s p0 pv Hf; [lia|].
  cbn [Re.sub_from]. rewrite match_here_cls.
  destruct s as [|x t]; [reflexivity|]. cbn [String.length] in Hf.
  cbn [Py.filter_str]. destruct (q x) eqn:E; cbn [negb].
  - cbn [Re.advance Re.pos Re.prev Re.rest].
    assert (Hlt : (p0 <? S p0)%nat = true) by (apply Nat.ltb_lt; lia).
    rewrite Hlt. cbn [append]. apply IH. lia.
  - rewrite IH by lia. reflexivity.
Qed.

Lemma sub_cls_erase (q : ascii -> bool) (s : string) :
  Re.sub false (Re.Cls q) (fun _ => "") s = Py.filter_str (fun c => negb (q c)) s.
Proof. unfold Re.sub. apply sub_from_cls_erase. lia. Qed.

Lemma match_here_plus_cls (p : ascii -> bool) (p0 : nat) (pv : option ascii)
  (s : string) :
  Re.match_here false (Re.Plus (Re.Cls p)) p0 pv s = More.run_at p p0 pv s.
Proof.
  unfold Re.match_here, Re.Plus, More.run_at. rewrite run_seq.
  destruct s as [|x t]; [reflexivity|].
  destruct (p x) eqn:E.
  - rewrite (run_cls_hit false p x t) by (reflexivity || exact E).
    rewrite run_star. cbn [Re.advance Re.rest].
    destruct (span_spec p t) as (Ht & Ha & Hb).
    destruct (Re.span p t) as [a b]. cbn [fst snd] in Ht, Ha, Hb.
    rewrite (more_cls false p a b); cbn [Re.rest].
    + f_equal. subst t. unfold Re.moved. cbn. f_equal. lia.
    + exact Ht.
    + exact Ha.
    + rewrite Ht, length_append. lia.
    + now right.
    + discriminate.
  - apply run_cls_miss. cbn. exact E.
Qed.

Lemma squeeze_run (p : ascii -> bool) (d : string) (a : string) :
  forall x b, p x = true -> Re.all p a = true -> Re.starts p b = false ->
  More.squeeze p d (String x (a ++ b)) = d ++ More.squeeze p d b.
Proof.
  induction a as [|y a IH]; intros x b Hx Ha Hb.
  - cbn [append More.squeeze]. now rewrite Hx, Hb.
  - cbn [Re.all] in Ha. apply andb_true_iff in Ha as [Hy Ha].
    change (More.squeeze p d (String x (String y a ++ b)))
      with (if p x then if Re.starts p (String y (a ++ b))
                        then More.squeeze p d (String y (a ++ b))
                        else d ++ More.squeeze p d (String y (a ++ b))
            else String x (More.squeeze p d (String y (a ++ b)))).
    rewrite Hx. cbn [Re.starts]. rewrite Hy. now apply IH.
Qed.

(** A pattern that matches as [p+] does is substituted as [p+] is. *)
Lemma sub_from_squeeze (r : Re.regex) (p : ascii -> bool) (d text : string) :
  (forall p0 pv s, Re.match_here false r p0 pv s = More.run_at p p0 pv s) ->
  forall fuel s p0 pv,
  String.length s < fuel ->
  Re.sub_from false r (fun _ => d) text fuel p0 pv s = More.squeeze p d s.
Proof.
  intros Hm. induction fuel as [|fuel IH]; intros s p0 pv Hf; [lia|].
  cbn [Re.sub_from]. rewrite Hm. unfold More.run_at.
  destruct s as [|x t]; [reflexivity|]. cbn [String.length] in Hf.
  destruct (p x) eqn:E.
  - destruct (span_spec p t) as (Ht & Ha & Hb).
    destruct (Re.span p t) as [a b]. cbn [fst snd] in Ht, Ha, Hb.
    cbn [Re.moved Re.pos Re.prev Re.rest String.length].
    assert (Hlt : (p0 <? p0 + S (String.length a))%nat = true)
      by (apply Nat.ltb_lt; lia).
    rewrite Hlt. rewrite IH.
    + rewrite Ht. now rewrite squeeze_run.
    + rewrite Ht, length_append in Hf. lia.
  - rewrite IH by lia. cbn [More.squeeze]. now rewrite E.
Qed.

Lemma sub_plus_cls (p : ascii -> bool) (d s : string) :
  Re.sub false (Re.Plus (Re.Cls p)) (fun _ => d) s = More.squeeze p d s.
Proof.
  unfold Re.sub. apply sub_from_squeeze; [|lia].
  intros. apply match_here_plus_cls.
Qed.

Lemma sub_plus_chr (c : ascii) (d s : string) :
  Re.sub false (Re.Plus (Re.Chr c)) (fun _ => d) s
  = More.squeeze (fun x => (c =? x)%char) d s.
Proof.
  unfold Re.sub. apply sub_from_squeeze; [|lia].
  intros. rewrite <- match_here_plus_cls. reflexivity.
Qed.

Lemma squeeze_all (q0 q p : ascii -> bool) (dc : ascii) (s : string) :
  (forall c, q0 c = true -> p c = false -> q c = true) -> q dc = true ->
  Re.all q0 s = true -> Re.all q (More.squeeze p (String dc "") s) = true.
Proof.
  intros Hq Hd. induction s as [|c t IH]; [reflexivity|]. cbn [Re.all More.squeeze].
  intros H. apply andb_true_iff in H as [Hc H]. specialize (IH H).
  destruct (p c) eqn:E.
  - destruct (Re.starts p t); [exact IH|]. cbn. now rewrite Hd.
  - cbn [Re.all]. now rewrite (Hq _ Hc E).
Qed.

Lemma squeeze_starts (p : ascii -> bool) (dc : ascii) (s : string) :
  p dc = true ->
  Re.starts p (More.squeeze p (String dc "") s) = Re.starts p s.
Proof.
  intros Hd. induction s as [|c t IH]; [reflexivity|]. cbn [More.squeeze Re.starts].
  destruct (p c) eqn:E; [|cbn; exact E].
  destruct (Re.starts p t) eqn:Et; [now rewrite IH|]. cbn. exact Hd.
Qed.

Lemma squeeze_no_double (p : ascii -> bool) (dc : ascii) (s : string) :
  p dc = true -> More.no_double p (More.squeeze p (String dc "") s) = true.
Proof.
  intros Hd. induction s as [|c t IH]; [reflexivity|]. cbn [More.squeeze].
  destruct (p c) eqn:E.
  - destruct (Re.starts p t) eqn:Et; [exact IH|].
    cbn [append More.no_double]. rewrite squeeze_starts by exact Hd.
    rewrite Et, andb_false_r. exact IH.
  - cbn [More.no_double]. rewrite E. exact IH.
Qed.

Lemma no_double_weaken (p u : ascii -> bool) (s : string) :
  (forall c, u c = true -> p c = true) ->
  More.no_double p s = true -> More.no_double u s = true.
Proof.
  intros Hup. induction s as [|c t IH]; [reflexivity|]. cbn [More.no_double].
  intros H. apply andb_true_iff in H as [Hc H]. rewrite (IH H), andb_true_r.
  destruct (u c) eqn:Eu; [|reflexivity]. rewrite (Hup _ Eu) in Hc.
  destruct t as [|y t]; [cbn; reflexivity|]. cbn [Re.starts] in *.
  destruct (u y) eqn:Ey; [|reflexivity]. now rewrite (Hup _ Ey) in Hc.
Qed.

Lemma no_double_lstrip_by (u p : ascii -> bool) (s : string) :
  More.no_double u s = true -> More.no_double u (Py.lstrip_by p s) = true.
Proof.
  induction s as [|c t IH]; [reflexivity|]. cbn [Py.lstrip_by]. intros H.
  destruct (p c); [|exact H]. cbn [More.no_double] in H.
  apply andb_true_iff in H as [_ H]. now apply IH.
Qed.

Lemma starts_rstrip_by (u p : ascii -> bool) (s : string) :
  Re.starts u (Py.rstrip_by p s) = true -> Re.starts u s = true.
Proof.
  destruct s as [|c t]; [discriminate|]. cbn [Py.rstrip_by Re.starts].
  destruct (Py.rstrip_by p t); [destruct (p c)|]; cbn; auto. discriminate.
Qed.

Lemma no_double_rstrip_by (u p : ascii -> bool) (s : string) :
  More.no_double u s = true -> More.no_double u (Py.rstrip_by p s) = true.
Proof.
  induction s as [|c t IH]; [reflexivity|]. cbn [Py.rstrip_by More.no_double].
  intros H. apply andb_true_iff in H as [Hc H]. specialize (IH H).
  destruct (Py.rstrip_by p t) as [|y r] eqn:Er.
  - destruct (p c); [reflexivity|]. cbn. now rewrite andb_false_r.
  - cbn [More.no_double]. cbn [More.no_double] in IH. rewrite IH, andb_true_r.
    destruct (u c); [|reflexivity]. cbn [andb] in *.
    destruct (Re.starts u (String y r)) eqn:Es; [|reflexivity].
    rewrite <- Er in Es. apply starts_rstrip_by in Es. now rewrite Es in Hc.
Qed.

Lemma ends_rstrip_by (p : ascii -> bool) (s : string) :
  More.ends p (Py.rstrip_by p s) = false.
Proof.
  unfold More.ends. destruct (Re.last_of _ None) as [x|] eqn:E; [|reflexivity].
  now apply rstrip_by_last in E.
Qed.

Lemma strip_by_tidy (q u : ascii -> bool) (s : string) :
  Re.all q s = true -> More.no_double u s = true ->
  More.tidy q u (PrepareImport.strip_by u s).
Proof.
  intros Ha Hd. unfold PrepareImport.strip_by. split.
  - now apply all_rstrip_by, all_lstrip_by.
  - now apply no_double_rstrip_by, no_double_lstrip_by.
  - apply rstrip_by_starts, lstrip_by_starts.
  - apply ends_rstrip_by.
Qed.

Lemma no_double_app (u : ascii -> bool) (a b : string) :
  More.no_double u a = true -> More.no_double u b = true ->
  More.ends u a = false ->
  More.no_double u (a ++ b) = true.
Proof.
  intros Ha Hb He. induction a as [|c a IH]; [exact Hb|].
  cbn [append More.no_double] in *. apply andb_true_iff in Ha as [Hc Ha].
  destruct a as [|y a].
  - cbn [append]. rewrite Hb, andb_true_r. unfold More.ends in He. cbn in He.
    now rewrite He.
  - rewrite IH; [|exact Ha|].
    + now rewrite andb_true_r.
    + unfold More.ends in *. cbn [Re.last_of] in *. exact He.
Qed.

Lemma ends_app (u : ascii -> bool) (a b : string) :
  b <> "" -> More.ends u (a ++ b) = More.ends u b.
Proof.
  intros Hb. unfold More.ends. rewrite last_of_app. now rewrite last_of_nonempty.
Qed.

Lemma starts_app_l (u : ascii -> bool) (a b : string) :
  a <> "" -> Re.starts u (a ++ b) = Re.starts u a.
Proof. destruct a; [congruence|reflexivity]. Qed.

(** Non-empty tidy parts joined by one separator are tidy. *)
Lemma join_tidy (q u : ascii -> bool) (sep : ascii) (parts : list string) :
  q sep = true ->
  Forall (fun part => part <> "" /\ More.tidy q u part) parts ->
  More.tidy q u (Py.join (String sep "") parts).
Proof.
  intros Hq. induction 1 as [|part parts [Hne Hp] Hrest IH].
  - split; reflexivity.
  - unfold Py.join in *. cbn [String.concat].
    destruct parts as [|part2 parts]; [exact Hp|].
    destruct Hp as [Pa Pd Ps Pe]. destruct IH as [Ia Id Is Ie].
    inversion Hrest as [|? ? [Hne2 _] _]; subst.
    set (tail := String.concat (String sep "") (part2 :: parts)) in *.
    assert (Htail : tail <> "").
    { unfold tail. cbn [String.concat]. destruct parts; [exact Hne2|].
      destruct part2; [congruence|discriminate]. }
    split.
    + rewrite !all_app. rewrite Pa, Ia. cbn. now rewrite Hq.
    + apply no_double_app; [exact Pd| |exact Pe].
      cbn [append More.no_double]. now rewrite Is, andb_false_r, Id.
    + now rewrite starts_app_l.
    + rewrite ends_app; [|discriminate]. cbn [append].
      change (String sep tail) with (String sep "" ++ tail).
      now rewrite ends_app.
Qed.

Lemma prefix_two (c : ascii) (s : string) :
  String.prefix (String c (String c "")) s = true ->
  exists t, s = String c (String c t).
Proof.
  intros H. apply prefix_app in H. destruct H as [t Ht]. exists t. now subst.
Qed.

Lemma no_double_substring (u : ascii -> bool) (c : ascii) (s : string) :
  u c = true -> More.no_double u s = true ->
  Py.is_substring (String c (String c "")) s = false.
Proof.
  intros Hu. induction s as [|x t IH]; [reflexivity|].
  cbn [More.no_double]. intros H. apply andb_true_iff in H as [Hx H].
  cbn [Py.is_substring]. rewrite (IH H), orb_false_r.
  destruct (String.prefix _ _) eqn:E; [|reflexivity].
  apply prefix_two in E as [t' [= -> ->]]. cbn in Hx. now rewrite Hu in Hx.
Qed.

Lemma starts_startswith (u : ascii -> bool) (c : ascii) (s : string) :
  u c = true -> Re.starts u s = false -> Py.startswith (String c "") s = false.
Proof.
  intros Hu Hs. unfold Py.startswith.
  destruct (String.prefix _ _) eqn:E; [|reflexivity].
  apply prefix_app in E as [t ->]. cbn in Hs. congruence.
Qed.

Lemma clean_part_tidy (part : string) :
  More.tidy More.slug_final PrepareImport.hyphen (PrepareImport.clean_part part).
Proof.
  unfold PrepareImport.clean_part.
  rewrite sub_cls_erase, sub_plus_cls, sub_plus_chr.
  apply strip_by_tidy.
  - apply (squeeze_all More.slug_final); [auto|reflexivity|].
    apply (squeeze_all PrepareImport.slug_keep); [|reflexivity|].
    + intros c Hk Hs. unfold PrepareImport.slug_keep in Hk. unfold More.slug_final.
      rewrite Hs in Hk. now rewrite orb_false_r in Hk.
    + eapply all_ext; [|apply filter_str_all].
      intros c Hc. cbn beta in Hc. now rewrite negb_involutive in Hc.
  - eapply no_double_weaken; [|apply squeeze_no_double; reflexivity].
    intros c Hc. unfold PrepareImport.hyphen in Hc. apply Ascii.eqb_eq in Hc.
    subst c. reflexivity.
Qed.

(** X17. The slug of a listing is made of lowercase letters, digits and
    hyphens only, holds no two hyphens side by side, and neither starts
    nor ends with a hyphen, whatever the name, the city and the state
    are. *)
Theorem generate_slug_shape (name city state : cell) :
  let slug := PrepareImport.generate_slug name city state in
  Re.all (fun c => Py.islower c || Py.isdigit c || (c =? "-")%char) slug = true
  /\ Py.is_substring "--" slug = false
  /\ Py.startswith "-" slug = false
  /\ More.ends_with "-" slug = false.
Proof.
  cbv zeta.
  assert (H : More.tidy More.slug_final PrepareImport.hyphen
                (PrepareImport.generate_slug name city state)).
  { unfold PrepareImport.generate_slug. apply (join_tidy _ _ "-"); [reflexivity|].
    set (step := fun (parts : list string) (part : cell) => _).
    assert (Hstep : forall parts part,
              Forall (fun p => p <> "" /\ More.tidy More.slug_final PrepareImport.hyphen p) parts ->
              Forall (fun p => p <> "" /\ More.tidy More.slug_final PrepareImport.hyphen p)
                     (step parts part)).
    { intros parts [|part] Hp; [exact Hp|]. unfold step.
      destruct (Py.is_empty part); [exact Hp|].
      destruct (Py.is_empty (PrepareImport.clean_part part)) eqn:E; [exact Hp|].
      apply Forall_app. split; [exact Hp|]. constructor; [|constructor].
      split; [|apply clean_part_tidy]. intros H0. rewrite H0 in E. discriminate. }
    cbn [fold_left]. auto. }
  destruct H as [Ha Hd Hs He]. repeat split.
  - exact Ha.
  - now apply (no_double_substring PrepareImport.hyphen).
  - now apply (starts_startswith PrepareImport.hyphen).
  - exact He.
Qed.

(** X18. The file-name slug of a location is made of lowercase letters,
    digits and underscores only, holds no two underscores side by side,
    and neither starts nor ends with an underscore. *)
Theorem slugify_shape (text : string) :
  let slug := OutscraperPull.slugify text in
  Re.all (fun c => Py.islower c || Py.isdigit c || (c =? "_")%char) slug = true
  /\ Py.is_substring "__" slug = false
  /\ Py.startswith "_" slug = false
  /\ More.ends_with "_" slug = false.
Proof.
  cbv zeta.
  assert (H : More.tidy More.slugify_final OutscraperPull.underscore
                (OutscraperPull.slugify text)).
  { unfold OutscraperPull.slugify. rewrite sub_plus_cls. apply strip_by_tidy.
    - apply (squeeze_all (fun _ => true)); [|reflexivity|].
      + intros c _ Hc. unfold More.slugify_final. apply negb_false_iff in Hc.
        now rewrite Hc.
      + generalize (Py.strip (Py.lower text)). induction s; cbn; auto.
    - eapply no_double_weaken; [|apply squeeze_no_double; reflexivity].
      intros c Hc. unfold OutscraperPull.underscore in Hc. apply Ascii.eqb_eq in Hc.
      subst c. reflexivity. }
  destruct H as [Ha Hd Hs He]. repeat split.
  - exact Ha.
  - now apply (no_double_substring OutscraperPull.underscore).
  - now apply (starts_startswith OutscraperPull.underscore).
  - exact He.
Qed.

(** ** Multiselect values *)

Lemma split_on_cons (sep c : ascii) (s : string) :
  (c =? sep)%char = false ->
  Py.split_on sep (String c s)
  = match Py.split_on sep s with
    | w :: ws => String c w :: ws
    | [] => [String c ""]
    end.
Proof. intros H. cbn [Py.split_on]. now rewrite H. Qed.

Lemma split_on_nonempty (sep : ascii) (s : string) : Py.split_on sep s <> [].
Proof.
  induction s as [|c t IH]; [discriminate|]. cbn [Py.split_on].
  destruct (c =? sep)%char; [discriminate|].
  destruct (Py.split_on sep t); [congruence|discriminate].
Qed.

Lemma split_on_app (sep : ascii) (a b : string) :
  Re.all (fun c => negb (c =? sep)%char) a = true ->
  Py.split_on sep (a ++ String sep b) = a :: Py.split_on sep b.
Proof.
  induction a as [|c a IH]; intros Ha.
  - cbn [append Py.split_on]. now rewrite Ascii.eqb_refl.
  - cbn [Re.all] in Ha. apply andb_true_iff in Ha as [Hc Ha].
    apply negb_true_iff in Hc. cbn [append]. rewrite split_on_cons by exact Hc.
    now rewrite IH.
Qed.

Lemma split_on_plain (sep : ascii) (a : string) :
  Re.all (fun c => negb (c =? sep)%char) a = true -> Py.split_on sep a = [a].
Proof.
  induction a as [|c a IH]; intros Ha; [reflexivity|].
  cbn [Re.all] in Ha. apply andb_true_iff in Ha as [Hc Ha].
  apply negb_true_iff in Hc. rewrite split_on_cons by exact Hc. now rewrite IH.
Qed.

Lemma split_on_pieces (sep : ascii) (s : string) :
  Forall (fun w => Re.all (fun c => negb (c =? sep)%char) w = true)
         (Py.split_on sep s).
Proof.
  induction s as [|c t IH]; [repeat constructor|]. cbn [Py.split_on].
  destruct (c =? sep)%char eqn:E; [constructor; [reflexivity|exact IH]|].
  destruct (Py.split_on sep t) as [|w ws]; [repeat constructor; cbn; now rewrite E|].
  inversion IH; subst. constructor; [|assumption]. cbn [Re.all]. rewrite E. assumption.
Qed.

Lemma split_on_join (items : list string) :
  Forall (fun item => Re.all More.not_comma item = true) items ->
  forall pre item, Re.all More.not_comma pre = true -> Re.all More.not_comma item = true ->
  Py.split_on "," (pre ++ Py.join ", " (item :: items))
  = (pre ++ item) :: map (fun i => " " ++ i) items.
Proof.
  unfold Py.join. induction 1 as [|item2 items H2 _ IH]; intros pre item Hp Hi.
  - cbn [String.concat map]. apply split_on_plain.
    change (Re.all More.not_comma (pre ++ item) = true). now rewrite all_app, Hp, Hi.
  - change (String.concat ", " (item :: item2 :: items))
      with (item ++ String "," (" " ++ String.concat ", " (item2 :: items))).
    cbn [map]. rewrite <- append_assoc. rewrite split_on_app.
    2:{ change (Re.all More.not_comma (pre ++ item) = true). now rewrite all_app, Hp, Hi. }
    f_equal. now apply IH.
Qed.

Lemma strip_space_cons (s : string) : Py.strip (String " " s) = Py.strip s.
Proof. reflexivity. Qed.

Lemma format_items (items : list string) :
  Forall More.item_ok items ->
  map Py.strip
    (filter (fun item => negb (Py.is_empty (Py.strip item)))
            (map (fun i => " " ++ i) items))
  = items.
Proof.
  induction 1 as [|item items (Hne & Hs & _) _ IH]; [reflexivity|].
  cbn [map filter]. change (" " ++ item) with (String " " item).
  rewrite strip_space_cons, Hs.
  destruct item as [|c item]; [congruence|]. cbn [Py.is_empty negb map].
  rewrite strip_space_cons, Hs. now rewrite IH.
Qed.

Lemma format_multiselect_join (items : list string) :
  Forall More.item_ok items ->
  PrepareImport.format_multiselect (Str (Py.join ", " items)) = Py.join ", " items.
Proof.
  intros Hok. unfold PrepareImport.format_multiselect.
  destruct (Py.is_empty (Py.join ", " items)) eqn:E.
  { destruct (Py.join ", " items); [reflexivity|discriminate]. }
  destruct items as [|item items]; [discriminate|].
  inversion Hok as [|? ? (Hne & Hs & Hc) Hrest]; subst.
  assert (Hsplit : Py.split_on "," (Py.join ", " (item :: items))
                   = item :: map (fun i => " " ++ i) items).
  { apply (split_on_join items) with (pre := ""); [|reflexivity|exact Hc].
    eapply Forall_impl; [|exact Hrest]. now intros i (_ & _ & H). }
  rewrite Hsplit. cbn [filter]. rewrite Hs.
  destruct item as [|c item]; [congruence|].
  cbn [Py.is_empty negb map]. rewrite Hs, (format_items items Hrest).
  reflexivity.
Qed.

Lemma format_multiselect_items (value : string) :
  Forall More.item_ok
    (map Py.strip
       (filter (fun item => negb (Py.is_empty (Py.strip item)))
               (Py.split_on "," value))).
Proof.
  apply Forall_forall. intros i Hi. apply in_map_iff in Hi as [w [<- Hw]].
  apply filter_In in Hw as [Hin Hne]. split; [|split].
  - intros H0. rewrite H0 in Hne. discriminate.
  - apply strip_idem.
  - pose proof (split_on_pieces "," value) as Hp. rewrite Forall_forall in Hp.
    apply all_rstrip_by, all_lstrip_by. now apply Hp.
Qed.

(** X19. A multiselect value is formatted to items joined by a comma and
    a space, each item not empty, without spaces around it and without a
    comma; a value that already is such a list, as the enrichment step
    writes them, is returned as it is, so formatting twice is formatting
    once. *)
Theorem format_multiselect_round_trip :
  (forall items, Forall More.item_ok items ->
     PrepareImport.format_multiselect (Str (Py.join ", " items)) = Py.join ", " items)
  /\ (forall value, exists items,
        Forall More.item_ok items
        /\ PrepareImport.format_multiselect value = Py.join ", " items)
  /\ (forall value,
        PrepareImport.format_multiselect (Str (PrepareImport.format_multiselect value))
        = PrepareImport.format_multiselect value).
Proof.
  assert (Hitems : forall value, exists items,
            Forall More.item_ok items
            /\ PrepareImport.format_multiselect value = Py.join ", " items).
  { intros [|value]; [exists []; split; [constructor|reflexivity]|].
    unfold PrepareImport.format_multiselect. destruct (Py.is_empty value).
    - exists []. split; [constructor|reflexivity].
    - eexists. split; [apply format_multiselect_items|reflexivity]. }
  split; [exact format_multiselect_join|]. split; [exact Hitems|].
  intros value. destruct (Hitems value) as (items & Hok & ->).
  now apply format_multiselect_join.
Qed.

Lemma format_multiselect_round_trip_witness :
  PrepareImport.format_multiselect (Str (Py.join ", " ["Anxiety"; "Couples Therapy"]))
  = Py.join ", " ["Anxiety"; "Couples Therapy"].
Proof.
  destruct format_multiselect_round_trip as [H _]. apply H.
  repeat constructor; discriminate.
Defined.

(** ** The zip code *)

Lemma match_here_zip (p : nat) (pv : option ascii) (s : string) (e : Re.cursor) :
  Re.match_here false More.zip_pattern p pv s = Some e ->
  exists d b, s = d ++ b /\ String.length d = 5 /\ Re.all Py.isdigit d = true
              /\ Re.group_range e 1 = Some (p, 5 + p).
Proof.
  unfold Re.match_here, More.zip_pattern.
  destruct s as [|c1 [|c2 [|c3 [|c4 [|c5 t]]]]]; cbn -[Py.isdigit];
    try discriminate;
    repeat match goal with
           | |- context [if Py.isdigit ?c then _ else _] =>
               let E := fresh "E" in destruct (Py.isdigit c) eqn:E
           end; try discriminate.
  intros [= <-].
  exists (String c1 (String c2 (String c3 (String c4 (String c5 ""))))), t.
  cbn -[Py.isdigit]. rewrite E, E0, E1, E2, E3. repeat split.
Qed.

Lemma match_here_zip_none (p : nat) (pv : option ascii) (d b : string) :
  String.length d = 5 -> Re.all Py.isdigit d = true ->
  Re.match_here false More.zip_pattern p pv (d ++ b) <> None.
Proof.
  intros Hl Ha.
  do 5 (destruct d as [|? d]; [discriminate Hl|]).
  destruct d; [|discriminate Hl]. cbn [Re.all] in Ha.
  repeat (apply andb_true_iff in Ha as [?H Ha]).
  unfold Re.match_here, More.zip_pattern. cbn -[Py.isdigit].
  rewrite H, H0, H1, H2, H3. discriminate.
Qed.

Lemma search_from_zip (s : string) : forall p pv q e,
  Re.search_from false More.zip_pattern p pv s = Some (q, e) ->
  exists a d b, s = a ++ d ++ b /\ String.length d = 5
                /\ Re.all Py.isdigit d = true
                /\ q = p + String.length a
                /\ Re.group_range e 1 = Some (q, 5 + q).
Proof.
  induction s as [|c t IH]; intros p pv q e; cbn [Re.search_from].
  - destruct (Re.match_here false More.zip_pattern p pv "") eqn:E; [|discriminate].
    apply match_here_zip in E as (d & b & Hs & Hl & _).
    destruct d; [discriminate Hl|discriminate Hs].
  - destruct (Re.match_here false More.zip_pattern p pv (String c t)) eqn:E.
    + intros [= <- <-]. apply match_here_zip in E as (d & b & Hs & Hl & Ha & Hg).
      exists "", d, b. cbn [append String.length]. rewrite Nat.add_0_r. auto.
    + intros H. apply IH in H as (a & d & b & Hs & Hl & Ha & Hq & Hg).
      exists (String c a), d, b. subst t. cbn [append String.length].
      repeat split; auto. lia.
Qed.

Lemma search_from_zip_none (s : string) : forall p pv,
  Re.search_from false More.zip_pattern p pv s = None ->
  forall a d b, s = a ++ d ++ b -> String.length d = 5 ->
                Re.all Py.isdigit d = true -> False.
Proof.
  induction s as [|c t IH]; intros p pv; cbn [Re.search_from].
  - intros _ a d b Hs Hl _. destruct a; [|discriminate].
    destruct d; [discriminate Hl|discriminate Hs].
  - destruct (Re.match_here false More.zip_pattern p pv (String c t)) eqn:E; [discriminate|].
    intros H a d b Hs Hl Ha. destruct a as [|x a].
    + cbn [append] in Hs. rewrite Hs in E.
      now apply (match_here_zip_none p pv d b Hl Ha).
    + cbn [append] in Hs. injection Hs as _ Ht.
      exact (IH _ _ H a d b Ht Hl Ha).
Qed.

(** X20. The zip code [standardize_fields] extracts from a value: when
    there is one it is five digits that stand side by side in the value;
    there is none exactly when the value holds no five digits side by
    side. *)
Theorem extract_zip_five_digits (s : string) :
  match Pandas.extract_zip s with
  | Str z =>
      String.length z = 5 /\ Re.all Py.isdigit z = true
      /\ exists a b, s = a ++ z ++ b
  | NaN =>
      forall a d b, s = a ++ d ++ b -> String.length d = 5 ->
                    Re.all Py.isdigit d = false
  end.
Proof.
  unfold Pandas.extract_zip. fold More.zip_pattern.
  destruct (Re.search_from false More.zip_pattern 0 None s) as [[q e]|] eqn:E.
  - apply search_from_zip in E as (a & d & b & Hs & Hl & Ha & Hq & Hg).
    rewrite (group_of_range s e 1 q (5 + q) Hg).
    replace (5 + q - q) with 5 by lia. cbn [Nat.add] in Hq. subst q.
    rewrite Hs, substring_skip.
    assert (Hd : String.substring 0 5 (d ++ b) = d)
      by (rewrite <- Hl; apply substring_prefix).
    rewrite Hd.
    split; [exact Hl|]. split; [exact Ha|]. now exists a, b.
  - intros a d b Hs Hl. destruct (Re.all Py.isdigit d) eqn:Ha; [|reflexivity].
    exfalso. exact (search_from_zip_none s 0 None E a d b Hs Hl Ha).
Qed.
